(** * Configuration-Space.ipynb: [create_grid]

    A shallow embedding of the notebook's [create_grid] function, which
    rasterises a table of axis-aligned box obstacles into a 2D occupancy
    grid at a fixed flight altitude.

    Modelling conventions.
    - A float64 scalar is the rational number it denotes ([Q]); the two
      infinities are the values [2^1024] and [-2^1024].  Every float
      addition and subtraction of the source is [float64.add] or
      [float64.sub]: the exact result rounded to the nearest float64, ties
      to even, with gradual underflow and overflow to an infinity.
      Comparisons, [floor], [ceil], [min], [max], [clip] and [int] are
      exact on floats, as in IEEE 754.
    - NaN is not represented.  From finite inputs the source can only
      produce it as [inf - inf] in [north_max - north_min] or
      [east_max - east_min], where it then raises at [int]; the model
      yields an infinity there.
    - Where the source raises because an extent is infinite or NaN
      ([int] of them), or because numpy refuses or fails to allocate the
      array, the model returns a grid.  So a statement about the grid that
      [create_grid] returns holds of the source whenever the source
      returns one; the model's [create_grid] raises only for numpy's two
      other errors, the empty reduction and the negative dimension.
    - The integer [size - 1] handed to [np.clip] is converted exactly; the
      source's conversion is exact below [2^53], beyond any array with a
      cell that can be allocated.
    - The [(n, 6)] array [data] is a list of rows, each row a record with
      the six columns the loop body unpacks.
    - A 2D numpy array carries its [shape] next to its rows, as numpy does
      (an array of shape [(0, 5)] still has five columns).
    - A Python exception is a value of [Exception]; functions that can
      raise return [result]. *)

From Stdlib Require Import String.
From Stdlib Require Import QArith Qround Qminmax ZArith List Lia Bool.
From Stdlib Require Import Permutation Lqa.
Import ListNotations.

Local Open Scope Q_scope.

(** ** Exceptions *)

Inductive Exception : Type :=
| ValueError (msg : string).

Inductive result (A : Type) : Type :=
| Ok (a : A)
| Raise (e : Exception).
Arguments Ok {A} a.
Arguments Raise {A} e.

Definition bind {A B} (m : result A) (k : A -> result B) : result B :=
  match m with
  | Ok a => k a
  | Raise e => Raise e
  end.

Notation "x <- m ;; k" := (bind m (fun x => k))
  (at level 61, m at next level, right associativity).

(** ** float64 arithmetic *)

Module float64.

(** Floats are multiples of [2^-1074]; [scale] turns such a multiple into
    an integer. *)
Definition scale : Z := 2 ^ 1074.

(** Rounding to the nearest integer, ties to even. *)
Definition rne (y : Q) : Z :=
  let f := Qfloor y in
  match Qcompare (y - inject_Z f) (1 # 2) with
  | Lt => f
  | Gt => (f + 1)%Z
  | Eq => if Z.even f then f else (f + 1)%Z
  end.

(** The spacing of the floats around the scaled magnitude [X >= 0]: [1]
    for the subnormals and the first binade of normal numbers, and then
    doubling with each binade, so that [X] is between [2^52] and [2^53]
    spacings. *)
Definition quantum (X : Q) : Z := 2 ^ Z.max 0 (Z.log2 (Qfloor X) - 52).

(** The scaled float nearest to the scaled magnitude [X >= 0]. *)
Definition round_scaled (X : Q) : Z :=
  (quantum X * rne (X / inject_Z (quantum X)))%Z.

(** The float nearest to [x], ties to even, with an unbounded exponent
    above; as a fraction in lowest terms. *)
Definition round (x : Q) : Q :=
  let X := x * inject_Z scale in
  Qred (if Qle_bool 0 X
        then Qmake (round_scaled X) (Z.to_pos scale)
        else Qmake (- round_scaled (- X)) (Z.to_pos scale)).

(** The value that stands for [inf]; [- INF] stands for [-inf]. *)
Definition INF : Q := inject_Z (2 ^ 1024).

(** A rounded result at or beyond [2^1024] overflows to an infinity. *)
Definition overflow (v : Q) : Q :=
  if Qle_bool INF v then INF
  else if Qle_bool v (- INF) then - INF
  else v.

(** [x + y] on floats.  An infinite operand gives that infinity
    ([inf + -inf], NaN in IEEE 754, is [inf] here). *)
Definition add (x y : Q) : Q :=
  if Qle_bool INF x || Qle_bool INF y then INF
  else if Qle_bool x (- INF) || Qle_bool y (- INF) then - INF
  else overflow (round (x + y)).

(** [x - y] on floats. *)
Definition sub (x y : Q) : Q := add x (- y).

End float64.

Notation "x +. y" := (float64.add x y) (at level 50, left associativity).
Notation "x -. y" := (float64.sub x y) (at level 50, left associativity).

(** ** The input table *)

(** One row of [data], in column order 0..5. *)
Record Obstacle : Type := mkObstacle {
  north : Q;
  east : Q;
  alt : Q;
  d_north : Q;
  d_east : Q;
  d_alt : Q
}.

(** ** numpy scalars and reductions *)

Module np.

(** [np.floor] and [np.ceil] return floats with an integral value. *)
Definition floor (x : Q) : Q := inject_Z (Qfloor x).
Definition ceil (x : Q) : Q := inject_Z (Qceiling x).

(** [np.min] and [np.max] of a 1-D array: a left-to-right reduction, which
    raises on an empty array. *)
Definition min (a : list Q) : result Q :=
  match a with
  | [] => Raise (ValueError
      "zero-size array to reduction operation minimum which has no identity")
  | x :: xs => Ok (fold_left Qmin xs x)
  end.

Definition max (a : list Q) : result Q :=
  match a with
  | [] => Raise (ValueError
      "zero-size array to reduction operation maximum which has no identity")
  | x :: xs => Ok (fold_left Qmax xs x)
  end.

(** [np.clip(a, a_min, a_max)] is [minimum(a_max, maximum(a, a_min))]; no
    check that [a_min <= a_max] is made. *)
Definition clip (a a_min a_max : Q) : Q := Qmin (Qmax a a_min) a_max.

(** A 2D array of floats. *)
Record ndarray : Type := mkArray {
  shape : Z * Z;
  rows : list (list Q)
}.

(** [np.zeros((n, m))] raises on a negative dimension. *)
Definition zeros (shp : Z * Z) : result ndarray :=
  let '(n, m) := shp in
  if ((n <? 0) || (m <? 0))%Z
  then Raise (ValueError "negative dimensions are not allowed")
  else Ok (mkArray (n, m) (repeat (repeat 0 (Z.to_nat m)) (Z.to_nat n))).

(** Python's normalisation of one bound of a slice with step 1 against an
    axis of length [len]: a negative bound counts from the end, and the
    result is clamped into [0, len]. *)
Definition slice_bound (i len : Z) : Z :=
  if (i <? 0)%Z then Z.max 0 (i + len) else Z.min i len.

(** Whether position [k] of an axis of length [len] is selected by the
    slice [start:stop]. *)
Definition in_slice (start stop len k : Z) : bool :=
  ((slice_bound start len <=? k) && (k <? slice_bound stop len))%Z.

(** Map over a list with the position of each element, counted from [i]. *)
Fixpoint map_idx {A} (f : Z -> A -> A) (i : Z) (l : list A) : list A :=
  match l with
  | [] => []
  | x :: xs => f i x :: map_idx f (i + 1)%Z xs
  end.

(** [a[r0:r1, c0:c1] = v], in place in the source, here returning the
    updated array. *)
Definition setitem (a : ndarray) (r0 r1 c0 c1 : Z) (v : Q) : ndarray :=
  let '(n, m) := shape a in
  mkArray (shape a)
    (map_idx (fun r row =>
                if in_slice r0 r1 n r
                then map_idx (fun c x => if in_slice c0 c1 m c then v else x)
                             0%Z row
                else row)
             0%Z (rows a)).

(** [a[r, c]] for a position inside the array ([None] stands for the
    IndexError of an out-of-range position; negative positions are not
    used by the statements below). *)
Definition getitem (a : ndarray) (r c : Z) : option Q :=
  if ((r <? 0) || (c <? 0))%Z then None
  else match nth_error (rows a) (Z.to_nat r) with
       | Some row => nth_error row (Z.to_nat c)
       | None => None
       end.

End np.

(** Python's [int(x)] on a float: truncation toward zero. *)
Definition int (x : Q) : Z := Z.quot (Qnum x) (Zpos (Qden x)).

(** [a > b] on floats. *)
Definition Qgtb (a b : Q) : bool := negb (Qle_bool a b).

(** ** create_grid *)

Section CreateGrid.

Variables (drone_altitude safety_distance : Q).

(** The four quantities computed before the loop. *)
Variables (north_min east_min : Q) (north_size east_size : Z).

(** The condition of the [if] in the loop body. *)
Definition altitude_test (o : Obstacle) : bool :=
  Qgtb (alt o +. d_alt o +. safety_distance) drone_altitude.

(** The list [obstacle] built in the loop body. *)
Definition obstacle (o : Obstacle) : Z * Z * Z * Z :=
  (int (np.clip (north o -. d_north o -. safety_distance -. north_min)
                0 (inject_Z (north_size - 1))),
   int (np.clip (north o +. d_north o +. safety_distance -. north_min)
                0 (inject_Z (north_size - 1))),
   int (np.clip (east o -. d_east o -. safety_distance -. east_min)
                0 (inject_Z (east_size - 1))),
   int (np.clip (east o +. d_east o +. safety_distance -. east_min)
                0 (inject_Z (east_size - 1)))).

(** One iteration of the loop. *)
Definition loop_body (grid : np.ndarray) (o : Obstacle) : np.ndarray :=
  if altitude_test o then
    let '(o0, o1, o2, o3) := obstacle o in
    np.setitem grid o0 (o1 + 1) o2 (o3 + 1) 1
  else grid.

(** The whole loop, over the rows of [data] in order. *)
Definition populate (data : list Obstacle) (grid : np.ndarray) : np.ndarray :=
  fold_left loop_body data grid.

End CreateGrid.

(** The columns reduced before the loop. *)
Definition north_lows (data : list Obstacle) : list Q :=
  map (fun o => north o -. d_north o) data.
Definition north_highs (data : list Obstacle) : list Q :=
  map (fun o => north o +. d_north o) data.
Definition east_lows (data : list Obstacle) : list Q :=
  map (fun o => east o -. d_east o) data.
Definition east_highs (data : list Obstacle) : list Q :=
  map (fun o => east o +. d_east o) data.

Definition create_grid (data : list Obstacle)
    (drone_altitude safety_distance : Q) : result np.ndarray :=
  n_lo <- np.min (north_lows data) ;;
  let north_min := np.floor n_lo in
  n_hi <- np.max (north_highs data) ;;
  let north_max := np.ceil n_hi in
  e_lo <- np.min (east_lows data) ;;
  let east_min := np.floor e_lo in
  e_hi <- np.max (east_highs data) ;;
  let east_max := np.ceil e_hi in
  let north_size := int (np.ceil (north_max -. north_min)) in
  let east_size := int (np.ceil (east_max -. east_min)) in
  grid <- np.zeros (north_size, east_size) ;;
  Ok (populate drone_altitude safety_distance
               north_min east_min north_size east_size data grid).

(** The values [create_grid] computes before allocating the grid:
    [(north_min, east_min, north_size, east_size)]. *)
Definition grid_frame (data : list Obstacle) : result (Q * Q * Z * Z) :=
  n_lo <- np.min (north_lows data) ;;
  n_hi <- np.max (north_highs data) ;;
  e_lo <- np.min (east_lows data) ;;
  e_hi <- np.max (east_highs data) ;;
  Ok (np.floor n_lo, np.floor e_lo,
      int (np.ceil (np.ceil n_hi -. np.floor n_lo)),
      int (np.ceil (np.ceil e_hi -. np.floor e_lo))).

(** ** Vocabulary of the specification *)

Definition FREE : Q := 0.
Definition BLOCKED : Q := 1.

Definition nonneg_half_extents (o : Obstacle) : Prop :=
  0 <= d_north o /\ 0 <= d_east o /\ 0 <= d_alt o.

(** A valid input: a non-empty table whose half-extents are non-negative. *)
Definition valid_input (data : list Obstacle) : Prop :=
  data <> [] /\ Forall nonneg_half_extents data.

(** [m] is the least (greatest) element of [l], up to the value of the
    fraction. *)
Definition is_min (m : Q) (l : list Q) : Prop :=
  (exists y, In y l /\ y == m) /\ forall y, In y l -> m <= y.
Definition is_max (m : Q) (l : list Q) : Prop :=
  (exists y, In y l /\ y == m) /\ forall y, In y l -> y <= m.

(** Position [(r, c)] lies in the closed index rectangle [obstacle]. *)
Definition in_rectangle (rect : Z * Z * Z * Z) (r c : Z) : Prop :=
  let '(o0, o1, o2, o3) := rect in
  (o0 <= r <= o1 /\ o2 <= c <= o3)%Z.

(** The cells a slice assignment [grid[o0:o1+1, o2:o3+1] = 1] writes on a
    grid of shape [(n, m)]. *)
Definition written (rect : Z * Z * Z * Z) (n m r c : Z) : bool :=
  let '(o0, o1, o2, o3) := rect in
  np.in_slice o0 (o1 + 1) n r && np.in_slice o2 (o3 + 1) m c.

(** Whether the iteration for [o] writes cell [(r, c)] of a grid of shape
    [shp]. *)
Definition contributes (a m north_min east_min : Q)
    (north_size east_size : Z) (shp : Z * Z) (r c : Z) (o : Obstacle) : bool :=
  altitude_test a m o &&
  written (obstacle m north_min east_min north_size east_size o)
          (fst shp) (snd shp) r c.

(** The inflated footprint in index space, translated by the grid origin
    and clamped, before truncation to integers:
    [(north_lo, north_hi, east_lo, east_hi)]. *)
Definition clamped_footprint (safety_distance north_min east_min : Q)
    (north_size east_size : Z) (o : Obstacle) : Q * Q * Q * Q :=
  (np.clip (north o -. d_north o -. safety_distance -. north_min)
           0 (inject_Z (north_size - 1)),
   np.clip (north o +. d_north o +. safety_distance -. north_min)
           0 (inject_Z (north_size - 1)),
   np.clip (east o -. d_east o -. safety_distance -. east_min)
           0 (inject_Z (east_size - 1)),
   np.clip (east o +. d_east o +. safety_distance -. east_min)
           0 (inject_Z (east_size - 1))).

(** The footprint contains the unit square of cell [(r, c)], which in
    index space is [[r, r+1] x [c, c+1]]. *)
Definition covers_cell (fp : Q * Q * Q * Q) (r c : Z) : Prop :=
  let '(n_lo, n_hi, e_lo, e_hi) := fp in
  n_lo <= inject_Z r /\ inject_Z r + 1 <= n_hi /\
  e_lo <= inject_Z c /\ inject_Z c + 1 <= e_hi.

(** Shape and contents of an array agree. *)
Definition well_formed (a : np.ndarray) : Prop :=
  let '(n, m) := np.shape a in
  (0 <= n)%Z /\ (0 <= m)%Z /\
  length (np.rows a) = Z.to_nat n /\
  Forall (fun row => length row = Z.to_nat m) (np.rows a).

(** The four bounds of an index rectangle are positions of a grid of
    shape [(n, m)]. *)
Definition bounds_in_range (rect : Z * Z * Z * Z) (n m : Z) : Prop :=
  let '(o0, o1, o2, o3) := rect in
  (0 <= o0 <= n - 1 /\ 0 <= o1 <= n - 1 /\
   0 <= o2 <= m - 1 /\ 0 <= o3 <= m - 1)%Z.

Definition binary (v : Q) : Prop := v = FREE \/ v = BLOCKED.

(** A cell is BLOCKED exactly when the clamped footprint of an obstacle
    that passes the altitude test contains the cell's unit square. *)
Definition blocked_iff_covered (data : list Obstacle) (a m : Q) : Prop :=
  forall g north_min east_min north_size east_size,
    create_grid data a m = Ok g ->
    grid_frame data = Ok (north_min, east_min, north_size, east_size) ->
    forall r c,
      (0 <= r < north_size)%Z -> (0 <= c < east_size)%Z ->
      (np.getitem g r c = Some BLOCKED <->
       exists o, In o data /\ altitude_test a m o = true /\
         covers_cell
           (clamped_footprint m north_min east_min north_size east_size o)
           r c).

(** [create_grid] raises on every table that is empty or has a negative
    half-extent. *)
Definition rejects_invalid_input (data : list Obstacle) (a m : Q) : Prop :=
  data = [] \/ ~ Forall nonneg_half_extents data ->
  exists e, create_grid data a m = Raise e.

(** On the table with the single row [o], [create_grid] marks cells
    exactly when [o] passes the altitude test. *)
Definition marks_exactly_when_passing (o : Obstacle) (a m : Q) : Prop :=
  forall g,
    create_grid [o] a m = Ok g ->
    (a < alt o +. d_alt o +. m <->
     exists r c, np.getitem g r c = Some BLOCKED).

(** The decimal literal [q] as Python reads it: the nearest float. *)
Definition literal (q : Q) : Q := float64.round q.

(** ** Scenario inputs *)

Definition scenario_obstacle : Obstacle := mkObstacle 0 0 5 2 2 5.

(** A point obstacle at the origin: all half-extents are zero. *)
Definition point_obstacle : Obstacle := mkObstacle 0 0 5 0 0 5.

(** An obstacle whose horizontal half-extents are negative. *)
Definition inverted_obstacle : Obstacle := mkObstacle 0 0 5 (-1) (-1) 5.

(** A row whose low edges [2.9 - 0.9] round to [2.0]. *)
Definition rounding_obstacle : Obstacle :=
  mkObstacle (literal (29 # 10)) (literal (29 # 10)) 5
             (literal (9 # 10)) (literal (9 # 10)) 5.

(** A low row that fails the altitude test at altitude 1, and a tall row
    whose north low edge [2.9 - 0.9] rounds to [2.0]. *)
Definition rounding_table : list Obstacle :=
  [mkObstacle 1 1 0 1 1 0;
   mkObstacle (literal (29 # 10)) 1 5 (literal (9 # 10)) 1 5].

(** The grid of [rounding_table] at altitude 1 without margin. *)
Definition rounding_grid : np.ndarray :=
  np.mkArray (4, 2)%Z [[0; 0]; [0; 0]; [1; 1]; [1; 1]].

(** A row whose altitude sum [0.1 + 0.7] rounds to
    [0.7999999999999999]. *)
Definition rounding_altitude_obstacle : Obstacle :=
  mkObstacle 1 1 (literal (1 # 10)) 1 1 (literal (7 # 10)).

(** * Properties *)

(** ** float64 arithmetic *)

Section Float64Facts.

Import float64.

Lemma scale_pos : (0 < scale)%Z.
Proof. reflexivity. Qed.

Lemma INF_pos : 0 < INF.
Proof. reflexivity. Qed.

Lemma rne_bounds (y : Q) : (Qfloor y <= rne y <= Qfloor y + 1)%Z.
Proof.
  unfold rne. destruct (Qcompare _ _); try lia.
  destruct (Z.even _); lia.
Qed.

Lemma rne_mono (y1 y2 : Q) : y1 <= y2 -> (rne y1 <= rne y2)%Z.
Proof.
  intros H. pose proof (Qfloor_resp_le _ _ H) as Hf.
  destruct (Z.eq_dec (Qfloor y1) (Qfloor y2)) as [E|E].
  - unfold rne. rewrite <- E.
    destruct (Qcompare_spec (y1 - inject_Z (Qfloor y1)) (1 # 2)) as [C1|C1|C1];
      destruct (Qcompare_spec (y2 - inject_Z (Qfloor y1)) (1 # 2)) as [C2|C2|C2];
      try (destruct (Z.even (Qfloor y1))); try lia; exfalso; lra.
  - pose proof (rne_bounds y1). pose proof (rne_bounds y2). lia.
Qed.

Lemma rne_Z (z : Z) : rne (inject_Z z) = z.
Proof.
  unfold rne. rewrite Qfloor_Z.
  assert (C : Qcompare (inject_Z z - inject_Z z) (1 # 2) = Lt).
  { rewrite <- Qlt_alt. lra. }
  now rewrite C.
Qed.

Lemma rne_comp (x y : Q) : x == y -> rne x = rne y.
Proof.
  intros E. unfold rne. rewrite (Qfloor_comp _ _ E).
  assert (C : Qcompare (x - inject_Z (Qfloor y)) (1 # 2) =
              Qcompare (y - inject_Z (Qfloor y)) (1 # 2)).
  { now rewrite E. }
  now rewrite C.
Qed.

Lemma quantum_pos (X : Q) : (0 < quantum X)%Z.
Proof. unfold quantum. apply Z.pow_pos_nonneg; lia. Qed.

Lemma quantum_comp (X Y : Q) : X == Y -> quantum X = quantum Y.
Proof. intros E. unfold quantum. now rewrite (Qfloor_comp _ _ E). Qed.

Lemma round_scaled_comp (X Y : Q) : X == Y -> round_scaled X = round_scaled Y.
Proof.
  intros E. unfold round_scaled. rewrite (quantum_comp _ _ E).
  f_equal. apply rne_comp. now rewrite E.
Qed.

Lemma inject_Z_pos (z : Z) : (0 < z)%Z -> 0 < inject_Z z.
Proof. intros H. change 0 with (inject_Z 0). now rewrite <- Zlt_Qlt. Qed.

Lemma Qdiv_le_mono (x y p : Q) : 0 < p -> x <= y -> x / p <= y / p.
Proof.
  intros Hp H. unfold Qdiv. apply Qmult_le_compat_r; [assumption|].
  apply Qlt_le_weak, Qinv_lt_0_compat, Hp.
Qed.

Lemma Qdiv_inject_Z (a p : Z) :
  (0 < p)%Z -> inject_Z (a * p) / inject_Z p == inject_Z a.
Proof.
  intros Hp. rewrite inject_Z_mult. field.
  intros E. pose proof (inject_Z_pos p Hp). lra.
Qed.

(** The scaled magnitude lies below [2^53] quanta. *)
Lemma below_top_of_binade (X : Q) :
  0 <= X -> X < inject_Z (2 ^ 53 * quantum X).
Proof.
  intros HX. unfold quantum.
  set (N := Qfloor X).
  assert (HN : (0 <= N)%Z).
  { change 0%Z with (Qfloor 0). now apply Qfloor_resp_le. }
  pose proof (Qlt_floor X) as HU. fold N in HU.
  assert (HZ : (N + 1 <= 2 ^ 53 * 2 ^ Z.max 0 (Z.log2 N - 52))%Z).
  { rewrite <- Z.pow_add_r by lia.
    destruct (Z.eq_dec N 0) as [->|Hne].
    - assert (0 < 2 ^ (53 + Z.max 0 (Z.log2 0 - 52)))%Z
        by (apply Z.pow_pos_nonneg; lia). lia.
    - pose proof (Z.log2_spec N ltac:(lia)) as [_ HL].
      assert (2 ^ (Z.succ (Z.log2 N)) <= 2 ^ (53 + Z.max 0 (Z.log2 N - 52)))%Z
        by (apply Z.pow_le_mono_r; lia).
      lia. }
  rewrite Zle_Qle in HZ. lra.
Qed.

(** From the second binade on, the scaled magnitude is at least [2^52]
    quanta. *)
Lemma above_bottom_of_binade (X : Q) :
  0 <= X -> (1 < quantum X)%Z -> inject_Z (2 ^ 52 * quantum X) <= X.
Proof.
  intros HX. unfold quantum.
  set (N := Qfloor X).
  pose proof (Qfloor_le X) as HL. fold N in HL.
  intros Hq.
  assert (Hk : (0 < Z.log2 N - 52)%Z).
  { destruct (Z.max_spec 0 (Z.log2 N - 52)) as [[? E]|[? E]];
      rewrite E in Hq; [lia|]. simpl in Hq. lia. }
  assert (HNpos : (0 < N)%Z).
  { destruct (Z.le_gt_cases N 0) as [Hle|]; [|assumption].
    rewrite (Z.log2_nonpos N Hle) in Hk. lia. }
  pose proof (Z.log2_spec N HNpos) as [HL2 _].
  rewrite Z.max_r by lia.
  rewrite <- Z.pow_add_r by lia.
  replace (52 + (Z.log2 N - 52))%Z with (Z.log2 N) by lia.
  rewrite Zle_Qle in HL2. lra.
Qed.

Lemma quantum_mono (X Y : Q) : X <= Y -> (quantum X <= quantum Y)%Z.
Proof.
  intros H. unfold quantum. apply Z.pow_le_mono_r; [lia|].
  apply Z.max_le_compat_l.
  pose proof (Z.log2_le_mono _ _ (Qfloor_resp_le _ _ H)). lia.
Qed.

Lemma round_scaled_mono (X Y : Q) :
  0 <= X -> X <= Y -> (round_scaled X <= round_scaled Y)%Z.
Proof.
  intros HX H. unfold round_scaled.
  pose proof (quantum_pos X) as PX. pose proof (quantum_pos Y) as PY.
  pose proof (quantum_mono _ _ H) as Hq.
  destruct (Z.eq_dec (quantum X) (quantum Y)) as [E|E].
  - rewrite E. apply Z.mul_le_mono_nonneg_l; [lia|].
    apply rne_mono, Qdiv_le_mono; [now apply inject_Z_pos|assumption].
  - assert (HY : 0 <= Y) by lra.
    assert (U : (rne (X / inject_Z (quantum X)) <= 2 ^ 53)%Z).
    { rewrite <- (rne_Z (2 ^ 53)). apply rne_mono.
      rewrite <- (Qdiv_inject_Z (2 ^ 53) (quantum X) PX).
      apply Qdiv_le_mono; [now apply inject_Z_pos|].
      apply Qlt_le_weak, below_top_of_binade, HX. }
    assert (L : (2 ^ 52 <= rne (Y / inject_Z (quantum Y)))%Z).
    { rewrite <- (rne_Z (2 ^ 52)). apply rne_mono.
      rewrite <- (Qdiv_inject_Z (2 ^ 52) (quantum Y) PY).
      apply Qdiv_le_mono; [now apply inject_Z_pos|].
      apply above_bottom_of_binade; [assumption|lia]. }
    (* the quantum at least doubles *)
    assert (D : (2 * quantum X <= quantum Y)%Z).
    { unfold quantum in *.
      set (kx := Z.max 0 (Z.log2 (Qfloor X) - 52)) in *.
      set (ky := Z.max 0 (Z.log2 (Qfloor Y) - 52)) in *.
      assert (kx < ky)%Z.
      { destruct (Z.lt_ge_cases kx ky) as [|Hge]; [assumption|].
        exfalso. apply E. f_equal.
        assert (ky <= kx)%Z by lia.
        assert (kx <= ky)%Z; [|lia].
        apply Z.pow_le_mono_r_iff in Hq; unfold kx, ky in *; lia. }
      change 2%Z with (2 ^ 1)%Z at 1. rewrite <- Z.pow_add_r by lia.
      apply Z.pow_le_mono_r; lia. }
    transitivity (quantum X * 2 ^ 53)%Z.
    + apply Z.mul_le_mono_nonneg_l; lia.
    + transitivity (quantum Y * 2 ^ 52)%Z.
      * change (2 ^ 53)%Z with (2 * 2 ^ 52)%Z.
        rewrite Z.mul_assoc.
        apply Z.mul_le_mono_nonneg_r; [|lia].
        apply Z.pow_nonneg; lia.
      * apply Z.mul_le_mono_nonneg_l; lia.
Qed.

Lemma round_scaled_0 : round_scaled 0 = 0%Z.
Proof. reflexivity. Qed.

Lemma round_scaled_nonneg (X : Q) : 0 <= X -> (0 <= round_scaled X)%Z.
Proof.
  intros H. rewrite <- round_scaled_0. apply round_scaled_mono; lra.
Qed.

Lemma Qmake_le (a b : Z) (p : positive) : (a <= b)%Z -> a # p <= b # p.
Proof. intros H. unfold Qle; simpl. apply Z.mul_le_mono_nonneg_r; lia. Qed.

Lemma scaled_mono (x y : Q) :
  x <= y -> x * inject_Z scale <= y * inject_Z scale.
Proof.
  intros H. apply Qmult_le_compat_r; [assumption|].
  apply Qlt_le_weak, inject_Z_pos, scale_pos.
Qed.

Lemma round_comp (x y : Q) : x == y -> round x = round y.
Proof.
  intros E. unfold round.
  assert (EX : x * inject_Z scale == y * inject_Z scale) by now rewrite E.
  assert (EN : - (x * inject_Z scale) == - (y * inject_Z scale))
    by now rewrite E.
  assert (EB : Qle_bool 0 (x * inject_Z scale) =
               Qle_bool 0 (y * inject_Z scale)).
  { destruct (Qle_bool 0 (x * inject_Z scale)) eqn:B1;
      destruct (Qle_bool 0 (y * inject_Z scale)) eqn:B2; try reflexivity.
    - apply Qle_bool_iff in B1. rewrite EX in B1.
      apply Qle_bool_iff in B1. congruence.
    - apply Qle_bool_iff in B2. rewrite <- EX in B2.
      apply Qle_bool_iff in B2. congruence. }
  rewrite EB, (round_scaled_comp _ _ EX), (round_scaled_comp _ _ EN).
  reflexivity.
Qed.

Lemma Qle_bool_false (x y : Q) : Qle_bool x y = false -> y < x.
Proof.
  intros H. destruct (Qlt_le_dec y x) as [|L]; [assumption|].
  apply Qle_bool_iff in L. congruence.
Qed.

Lemma round_mono (x y : Q) : x <= y -> round x <= round y.
Proof.
  intros H. pose proof (scaled_mono _ _ H) as HS. unfold round.
  rewrite !Qred_correct.
  destruct (Qle_bool 0 (x * inject_Z scale)) eqn:Bx;
    destruct (Qle_bool 0 (y * inject_Z scale)) eqn:By.
  - apply Qle_bool_iff in Bx. apply Qmake_le, round_scaled_mono; assumption.
  - apply Qle_bool_iff in Bx. apply Qle_bool_false in By. lra.
  - apply Qle_bool_false in Bx. apply Qle_bool_iff in By.
    apply Qmake_le.
    pose proof (round_scaled_nonneg (- (x * inject_Z scale)) ltac:(lra)).
    pose proof (round_scaled_nonneg _ By). lia.
  - apply Qle_bool_false in Bx. apply Qle_bool_false in By.
    apply Qmake_le.
    assert (round_scaled (- (y * inject_Z scale)) <=
            round_scaled (- (x * inject_Z scale)))%Z; [|lia].
    apply round_scaled_mono; lra.
Qed.

Lemma round_0 : round 0 == 0.
Proof. reflexivity. Qed.

Lemma overflow_mono (x y : Q) : x <= y -> overflow x <= overflow y.
Proof.
  intros H. pose proof INF_pos as P. unfold overflow.
  destruct (Qle_bool INF x) eqn:A1; destruct (Qle_bool INF y) eqn:A2;
    destruct (Qle_bool x (- INF)) eqn:B1;
    destruct (Qle_bool y (- INF)) eqn:B2;
    rewrite ?Qle_bool_iff in *;
    repeat match goal with
           | K : Qle_bool _ _ = false |- _ => apply Qle_bool_false in K
           end; lra.
Qed.

Lemma overflow_range (x : Q) : - INF <= overflow x <= INF.
Proof.
  pose proof INF_pos as P. unfold overflow.
  destruct (Qle_bool INF x) eqn:A1; destruct (Qle_bool x (- INF)) eqn:B1;
    rewrite ?Qle_bool_iff in *;
    repeat match goal with
           | K : Qle_bool _ _ = false |- _ => apply Qle_bool_false in K
           end; lra.
Qed.

Lemma Qle_bool_comp (x x' y y' : Q) :
  x == x' -> y == y' -> Qle_bool x y = Qle_bool x' y'.
Proof.
  intros Ex Ey.
  destruct (Qle_bool x y) eqn:B1; destruct (Qle_bool x' y') eqn:B2;
    try reflexivity.
  - apply Qle_bool_iff in B1. rewrite Ex, Ey in B1.
    apply Qle_bool_iff in B1. congruence.
  - apply Qle_bool_iff in B2. rewrite <- Ex, <- Ey in B2.
    apply Qle_bool_iff in B2. congruence.
Qed.

Ltac float_cases :=
  repeat match goal with
         | |- context [Qle_bool ?a ?b] =>
             let B := fresh "B" in destruct (Qle_bool a b) eqn:B
         | K : Qle_bool _ _ = true |- _ => apply Qle_bool_iff in K
         | K : Qle_bool _ _ = false |- _ => apply Qle_bool_false in K
         end; cbn [orb].

Lemma add_range (x y : Q) : - INF <= add x y <= INF.
Proof.
  pose proof INF_pos as P.
  pose proof (overflow_range (round (x + y))) as O.
  unfold add. float_cases; lra.
Qed.

Lemma add_mono (x x' y y' : Q) : x <= x' -> y <= y' -> add x y <= add x' y'.
Proof.
  intros Hx Hy. pose proof INF_pos as P.
  assert (G : overflow (round (x + y)) <= overflow (round (x' + y')))
    by (apply overflow_mono, round_mono; lra).
  pose proof (overflow_range (round (x + y))) as O.
  pose proof (overflow_range (round (x' + y'))) as O'.
  unfold add. float_cases; lra.
Qed.

Lemma sub_mono (x x' y y' : Q) : x <= x' -> y' <= y -> sub x y <= sub x' y'.
Proof. intros Hx Hy. unfold sub. apply add_mono; lra. Qed.

Lemma add_comp (x x' y y' : Q) : x == x' -> y == y' -> add x y = add x' y'.
Proof.
  intros Ex Ey. unfold add.
  rewrite (Qle_bool_comp INF INF x x' (Qeq_refl _) Ex).
  rewrite (Qle_bool_comp x x' (- INF) (- INF) Ex (Qeq_refl _)).
  rewrite (Qle_bool_comp INF INF y y' (Qeq_refl _) Ey).
  rewrite (Qle_bool_comp y y' (- INF) (- INF) Ey (Qeq_refl _)).
  assert (E : round (x + y) = round (x' + y'))
    by (apply round_comp; now rewrite Ex, Ey).
  now rewrite E.
Qed.

Lemma sub_comp (x x' y y' : Q) : x == x' -> y == y' -> sub x y = sub x' y'.
Proof. intros Ex Ey. unfold sub. apply add_comp; [assumption|now rewrite Ey]. Qed.

Lemma sub_nonneg (x y : Q) : y <= x -> 0 <= sub x y.
Proof.
  intros H. pose proof INF_pos as P.
  assert (G : 0 <= overflow (round (x + - y))).
  { assert (E : overflow (round 0) == 0) by reflexivity.
    rewrite <- E. apply overflow_mono, round_mono. lra. }
  unfold sub, add. float_cases; lra.
Qed.

(** The low edge of a footprint is not above its high edge. *)
Lemma half_extent_order (x d : Q) : 0 <= d -> x -. d <= x +. d.
Proof.
  intros H. unfold sub. apply add_mono; lra.
Qed.

Lemma sub_add_order (x x' d : Q) : x <= x' -> 0 <= d -> x -. d <= x' +. d.
Proof.
  intros Hx H. unfold sub. apply add_mono; lra.
Qed.

End Float64Facts.

(** The float operations are used through the lemmas above. *)
Opaque float64.add float64.sub float64.round.

(** ** Lists with positions *)

Lemma length_map_idx {A} (f : Z -> A -> A) (l : list A) (i : Z) :
  length (np.map_idx f i l) = length l.
Proof.
  revert i; induction l as [|x xs IH]; intros i; simpl; [reflexivity|].
  now rewrite IH.
Qed.

Lemma nth_error_map_idx {A} (f : Z -> A -> A) (l : list A) :
  forall (i : Z) (k : nat),
    nth_error (np.map_idx f i l) k =
    option_map (f (i + Z.of_nat k)%Z) (nth_error l k).
Proof.
  induction l as [|x xs IH]; intros i k.
  - destruct k; reflexivity.
  - destruct k as [|k]; simpl.
    + now rewrite Z.add_0_r.
    + rewrite IH. do 2 f_equal. lia.
Qed.

(** ** Arrays *)

Lemma shape_setitem a r0 r1 c0 c1 v :
  np.shape (np.setitem a r0 r1 c0 c1 v) = np.shape a.
Proof. unfold np.setitem. destruct (np.shape a); reflexivity. Qed.

Lemma well_formed_setitem a r0 r1 c0 c1 v :
  well_formed a -> well_formed (np.setitem a r0 r1 c0 c1 v).
Proof.
  unfold well_formed, np.setitem.
  destruct a as [[n m] rs]; simpl.
  intros (Hn & Hm & Hlen & Hrows).
  repeat split; try assumption.
  - now rewrite length_map_idx.
  - apply Forall_forall. intros row Hin.
    apply In_nth_error in Hin. destruct Hin as [k Hk].
    rewrite nth_error_map_idx in Hk.
    destruct (nth_error rs k) as [row0|] eqn:E; [|discriminate].
    simpl in Hk. injection Hk as <-.
    assert (Hl : length row0 = Z.to_nat m).
    { rewrite Forall_forall in Hrows. apply Hrows.
      eapply nth_error_In; eauto. }
    destruct (np.in_slice r0 r1 n _); [|assumption].
    now rewrite length_map_idx.
Qed.

Lemma zeros_ok n m :
  (0 <= n)%Z -> (0 <= m)%Z ->
  np.zeros (n, m) =
  Ok (np.mkArray (n, m) (repeat (repeat 0 (Z.to_nat m)) (Z.to_nat n))).
Proof.
  intros Hn Hm. unfold np.zeros.
  destruct (Z.ltb_spec n 0); [lia|].
  destruct (Z.ltb_spec m 0); [lia|]. reflexivity.
Qed.

Lemma zeros_inv shp g :
  np.zeros shp = Ok g ->
  (0 <= fst shp)%Z /\ (0 <= snd shp)%Z /\
  g = np.mkArray shp
        (repeat (repeat 0 (Z.to_nat (snd shp))) (Z.to_nat (fst shp))).
Proof.
  destruct shp as [n m]. unfold np.zeros. simpl.
  destruct (Z.ltb_spec n 0); simpl; [discriminate|].
  destruct (Z.ltb_spec m 0); simpl; [discriminate|].
  intros [= <-]. auto.
Qed.

Lemma zeros_raise shp e :
  np.zeros shp = Raise e -> (fst shp < 0 \/ snd shp < 0)%Z.
Proof.
  destruct shp as [n m]. unfold np.zeros. simpl.
  destruct (Z.ltb_spec n 0); simpl; [lia|].
  destruct (Z.ltb_spec m 0); simpl; [lia|]. discriminate.
Qed.

Lemma well_formed_zeros n m :
  (0 <= n)%Z -> (0 <= m)%Z ->
  well_formed
    (np.mkArray (n, m) (repeat (repeat 0 (Z.to_nat m)) (Z.to_nat n))).
Proof.
  intros Hn Hm. unfold well_formed; simpl.
  repeat split; try assumption.
  - apply repeat_length.
  - apply Forall_forall. intros row Hin.
    apply repeat_spec in Hin. subst. apply repeat_length.
Qed.

Lemma nth_error_repeat_lt {A} (x : A) (n k : nat) :
  (k < n)%nat -> nth_error (repeat x n) k = Some x.
Proof.
  revert k; induction n as [|n IH]; intros k Hk; [lia|].
  destruct k; simpl; [reflexivity|]. apply IH. lia.
Qed.

Lemma getitem_zeros n m r c :
  (0 <= r < n)%Z -> (0 <= c < m)%Z ->
  np.getitem
    (np.mkArray (n, m) (repeat (repeat 0 (Z.to_nat m)) (Z.to_nat n))) r c
  = Some 0.
Proof.
  intros Hr Hc. unfold np.getitem; simpl.
  destruct (Z.ltb_spec r 0); [lia|].
  destruct (Z.ltb_spec c 0); [lia|]. simpl.
  rewrite nth_error_repeat_lt by lia.
  apply nth_error_repeat_lt. lia.
Qed.

Lemma getitem_in_range a r c v :
  well_formed a -> np.getitem a r c = Some v ->
  (0 <= r < fst (np.shape a))%Z /\ (0 <= c < snd (np.shape a))%Z.
Proof.
  unfold well_formed, np.getitem.
  destruct a as [[n m] rs]; simpl.
  intros (Hn & Hm & Hlen & Hrows).
  destruct (Z.ltb_spec r 0); simpl; [discriminate|].
  destruct (Z.ltb_spec c 0); simpl; [discriminate|].
  destruct (nth_error rs (Z.to_nat r)) as [row|] eqn:E; [|discriminate].
  intros Hc.
  assert (Hr1 : (Z.to_nat r < length rs)%nat)
    by (apply nth_error_Some; congruence).
  assert (Hc1 : (Z.to_nat c < length row)%nat)
    by (apply nth_error_Some; congruence).
  assert (Hl : length row = Z.to_nat m).
  { rewrite Forall_forall in Hrows. apply Hrows.
    eapply nth_error_In; eauto. }
  lia.
Qed.

Lemma getitem_some a r c :
  well_formed a ->
  (0 <= r < fst (np.shape a))%Z -> (0 <= c < snd (np.shape a))%Z ->
  exists v, np.getitem a r c = Some v.
Proof.
  unfold well_formed, np.getitem.
  destruct a as [[n m] rs]; simpl.
  intros (Hn & Hm & Hlen & Hrows) Hr Hc.
  destruct (Z.ltb_spec r 0); [lia|].
  destruct (Z.ltb_spec c 0); [lia|]. simpl.
  destruct (nth_error rs (Z.to_nat r)) as [row|] eqn:E.
  - assert (Hl : length row = Z.to_nat m).
    { rewrite Forall_forall in Hrows. apply Hrows.
      eapply nth_error_In; eauto. }
    destruct (nth_error row (Z.to_nat c)) as [v|] eqn:E2; [eauto|].
    apply nth_error_None in E2. lia.
  - apply nth_error_None in E. lia.
Qed.

(** Reading a cell after a slice assignment. *)
Lemma getitem_setitem a r0 r1 c0 c1 v r c :
  well_formed a ->
  (0 <= r < fst (np.shape a))%Z -> (0 <= c < snd (np.shape a))%Z ->
  np.getitem (np.setitem a r0 r1 c0 c1 v) r c =
  if np.in_slice r0 r1 (fst (np.shape a)) r &&
     np.in_slice c0 c1 (snd (np.shape a)) c
  then Some v else np.getitem a r c.
Proof.
  intros Hwf Hr Hc.
  destruct (getitem_some a r c Hwf Hr Hc) as [v0 Hv0].
  revert Hwf Hr Hc Hv0.
  unfold well_formed, np.getitem, np.setitem.
  destruct a as [[n m] rs]; simpl.
  intros (Hn & Hm & Hlen & Hrows) Hr Hc.
  destruct (Z.ltb_spec r 0); [lia|].
  destruct (Z.ltb_spec c 0); [lia|]. simpl.
  rewrite nth_error_map_idx.
  destruct (nth_error rs (Z.to_nat r)) as [row|] eqn:E; [|discriminate].
  simpl. rewrite Z2Nat.id by lia. intros Hv0.
  destruct (np.in_slice r0 r1 n r); simpl; [|reflexivity].
  rewrite nth_error_map_idx, Hv0. simpl.
  rewrite Z2Nat.id by lia.
  destruct (np.in_slice c0 c1 m c); reflexivity.
Qed.

(** Two well-formed arrays of one shape with the same cells are equal. *)
Lemma ndarray_ext a b :
  well_formed a -> well_formed b -> np.shape a = np.shape b ->
  (forall r c, (0 <= r < fst (np.shape a))%Z ->
               (0 <= c < snd (np.shape a))%Z ->
               np.getitem a r c = np.getitem b r c) ->
  a = b.
Proof.
  unfold well_formed, np.getitem.
  destruct a as [[n m] ra], b as [[n' m'] rb]; simpl.
  intros (Hn & Hm & Hla & Hra) (_ & _ & Hlb & Hrb) [= <- <-] Hcells.
  f_equal. apply nth_error_ext. intros k.
  destruct (Nat.lt_ge_cases k (Z.to_nat n)) as [Hk|Hk].
  2:{ transitivity (@None (list Q)); [|symmetry];
      apply nth_error_None; lia. }
  destruct (nth_error ra k) as [rowa|] eqn:Ea.
  2:{ apply nth_error_None in Ea. lia. }
  destruct (nth_error rb k) as [rowb|] eqn:Eb.
  2:{ apply nth_error_None in Eb. lia. }
  f_equal. apply nth_error_ext. intros j.
  assert (Hlena : length rowa = Z.to_nat m).
  { rewrite Forall_forall in Hra. apply Hra. eapply nth_error_In; eauto. }
  assert (Hlenb : length rowb = Z.to_nat m).
  { rewrite Forall_forall in Hrb. apply Hrb. eapply nth_error_In; eauto. }
  destruct (Nat.lt_ge_cases j (Z.to_nat m)) as [Hj|Hj].
  2:{ transitivity (@None Q); [|symmetry]; apply nth_error_None; lia. }
  specialize (Hcells (Z.of_nat k) (Z.of_nat j)).
  destruct (Z.ltb_spec (Z.of_nat k) 0); [lia|].
  destruct (Z.ltb_spec (Z.of_nat j) 0); [lia|]. simpl in Hcells.
  rewrite !Nat2Z.id, Ea, Eb in Hcells. apply Hcells; lia.
Qed.

(** ** Scalars *)

Lemma int_inject_Z (z : Z) : int (inject_Z z) = z.
Proof. unfold int; simpl. apply Z.quot_1_r. Qed.

Lemma int_nonneg (x : Q) : 0 <= x -> int x = Qfloor x.
Proof.
  destruct x as [p q]. unfold int, Qfloor, Qle; simpl. intros H.
  apply Z.quot_div_nonneg; lia.
Qed.

Lemma Qgtb_spec (a b : Q) : Qgtb a b = true <-> b < a.
Proof.
  unfold Qgtb. rewrite negb_true_iff.
  destruct (Qle_bool a b) eqn:E.
  - apply Qle_bool_iff in E. split; [discriminate|].
    intros H. exfalso. apply (Qlt_irrefl b). eapply Qlt_le_trans; eauto.
  - split; [|reflexivity]. intros _.
    destruct (Qlt_le_dec b a) as [H|H]; [assumption|].
    apply Qle_bool_iff in H. congruence.
Qed.

Lemma Qgtb_false (a b : Q) : Qgtb a b = false <-> a <= b.
Proof.
  unfold Qgtb. rewrite negb_false_iff. apply Qle_bool_iff.
Qed.

Lemma clip_range (x : Q) (n : Z) :
  (1 <= n)%Z ->
  0 <= np.clip x 0 (inject_Z (n - 1)) <= inject_Z (n - 1).
Proof.
  intros Hn. unfold np.clip. split.
  - apply Q.min_glb; [apply Q.le_max_r|].
    change 0 with (inject_Z 0). rewrite <- Zle_Qle. lia.
  - apply Q.le_min_r.
Qed.

Lemma clip_mono (x y lo hi : Q) :
  x <= y -> np.clip x lo hi <= np.clip y lo hi.
Proof.
  intros H. unfold np.clip.
  apply Q.min_le_compat_r, Q.max_le_compat_r, H.
Qed.

Lemma int_clip_range (x : Q) (n : Z) :
  (1 <= n)%Z -> (0 <= int (np.clip x 0 (inject_Z (n - 1))) <= n - 1)%Z.
Proof.
  intros Hn. destruct (clip_range x n Hn) as [H0 H1].
  rewrite int_nonneg by assumption. split.
  - change 0%Z with (Qfloor 0). now apply Qfloor_resp_le.
  - pose proof (Qfloor_resp_le _ _ H1) as H.
    rewrite Qfloor_Z in H. exact H.
Qed.

Lemma int_clip_mono (x y : Q) (n : Z) :
  (1 <= n)%Z -> x <= y ->
  (int (np.clip x 0 (inject_Z (n - 1))) <=
   int (np.clip y 0 (inject_Z (n - 1))))%Z.
Proof.
  intros Hn H.
  rewrite !int_nonneg by (apply clip_range; assumption).
  apply Qfloor_resp_le, clip_mono, H.
Qed.

(** On an axis without positions the clamp yields [-1]. *)
Lemma int_clip_empty_axis (x : Q) :
  int (np.clip x 0 (inject_Z (0 - 1))) = (-1)%Z.
Proof.
  unfold np.clip.
  assert (H : Qmin (Qmax x 0) (inject_Z (0 - 1)) == inject_Z (-1)).
  { apply Q.min_r. eapply Qle_trans; [|apply Q.le_max_r]. discriminate. }
  destruct (Q.min_dec (Qmax x 0) (inject_Z (0 - 1))) as [E|E].
  - assert (Hle : Qmax x 0 <= inject_Z (-1)) by (rewrite <- E, H; apply Qle_refl).
    exfalso. assert (H0 : 0 <= inject_Z (-1)).
    { eapply Qle_trans; [apply (Q.le_max_r x 0)|exact Hle]. }
    revert H0. unfold Qle; simpl. lia.
  - clear H. revert E. generalize (Qmin (Qmax x 0) (inject_Z (0 - 1))).
    intros q E. unfold int.
    destruct q as [p d]. unfold Qeq in E; simpl in E.
    cbn [Qnum Qden].
    replace p with (- Zpos d)%Z by lia.
    rewrite Z.quot_opp_l by lia. rewrite Z.quot_same; lia.
Qed.

(** ** Slices *)

(** For a position on the axis and non-negative bounds, the slice
    [start:stop+1] selects the closed range [start..stop]. *)
Lemma in_slice_closed (start stop len k : Z) :
  (0 <= k < len)%Z -> (0 <= start)%Z -> (0 <= stop)%Z ->
  np.in_slice start (stop + 1) len k = true <-> (start <= k <= stop)%Z.
Proof.
  intros Hk Hs He. unfold np.in_slice, np.slice_bound.
  destruct (Z.ltb_spec start 0); [lia|].
  destruct (Z.ltb_spec (stop + 1) 0); [lia|].
  rewrite andb_true_iff, Z.leb_le, Z.ltb_lt. lia.
Qed.

(** A slice never selects a position off the axis. *)
Lemma in_slice_on_axis (start stop len k : Z) :
  (0 <= len)%Z ->
  np.in_slice start stop len k = true -> (0 <= k < len)%Z.
Proof.
  intros Hlen. unfold np.in_slice, np.slice_bound.
  rewrite andb_true_iff, Z.leb_le, Z.ltb_lt.
  destruct (Z.ltb_spec start 0); destruct (Z.ltb_spec stop 0); lia.
Qed.

(** ** Reductions *)

Lemma fold_left_Qmin_is_min (xs : list Q) :
  forall x, is_min (fold_left Qmin xs x) (x :: xs).
Proof.
  induction xs as [|y ys IH]; intros x; simpl.
  - split; [exists x; split; [now left|reflexivity]|].
    intros z [<-|[]]. apply Qle_refl.
  - destruct (IH (Qmin x y)) as [(z & Hz & Ez) Hle]. split.
    + destruct Hz as [<-|Hz].
      * destruct (Q.min_dec x y) as [E|E].
        -- exists x. split; [now left|].
           eapply Qeq_trans; [symmetry; exact E|exact Ez].
        -- exists y. split; [right; now left|].
           eapply Qeq_trans; [symmetry; exact E|exact Ez].
      * exists z. split; [right; now right|assumption].
    + intros z' [<-|[<-|Hz']].
      * eapply Qle_trans; [apply Hle; now left|apply Q.le_min_l].
      * eapply Qle_trans; [apply Hle; now left|apply Q.le_min_r].
      * apply Hle. now right.
Qed.

Lemma fold_left_Qmax_is_max (xs : list Q) :
  forall x, is_max (fold_left Qmax xs x) (x :: xs).
Proof.
  induction xs as [|y ys IH]; intros x; simpl.
  - split; [exists x; split; [now left|reflexivity]|].
    intros z [<-|[]]. apply Qle_refl.
  - destruct (IH (Qmax x y)) as [(z & Hz & Ez) Hle]. split.
    + destruct Hz as [<-|Hz].
      * destruct (Q.max_dec x y) as [E|E].
        -- exists x. split; [now left|].
           eapply Qeq_trans; [symmetry; exact E|exact Ez].
        -- exists y. split; [right; now left|].
           eapply Qeq_trans; [symmetry; exact E|exact Ez].
      * exists z. split; [right; now right|assumption].
    + intros z' [<-|[<-|Hz']].
      * eapply Qle_trans; [apply Q.le_max_l|apply Hle; now left].
      * eapply Qle_trans; [apply Q.le_max_r|apply Hle; now left].
      * apply Hle. now right.
Qed.

Lemma np_min_spec (l : list Q) :
  l <> [] -> exists m, np.min l = Ok m /\ is_min m l.
Proof.
  destruct l as [|x xs]; [congruence|]. intros _.
  eexists. split; [reflexivity|]. apply fold_left_Qmin_is_min.
Qed.

Lemma np_max_spec (l : list Q) :
  l <> [] -> exists m, np.max l = Ok m /\ is_max m l.
Proof.
  destruct l as [|x xs]; [congruence|]. intros _.
  eexists. split; [reflexivity|]. apply fold_left_Qmax_is_max.
Qed.

Lemma is_min_unique (m m' : Q) (l l' : list Q) :
  (forall y, In y l <-> In y l') ->
  is_min m l -> is_min m' l' -> m == m'.
Proof.
  intros Hin [(y & Hy & Ey) Hle] [(y' & Hy' & Ey') Hle'].
  apply Qle_antisym.
  - rewrite <- Ey'. apply Hle, Hin, Hy'.
  - rewrite <- Ey. apply Hle', Hin, Hy.
Qed.

Lemma is_max_unique (m m' : Q) (l l' : list Q) :
  (forall y, In y l <-> In y l') ->
  is_max m l -> is_max m' l' -> m == m'.
Proof.
  intros Hin [(y & Hy & Ey) Hle] [(y' & Hy' & Ey') Hle'].
  apply Qle_antisym.
  - rewrite <- Ey. apply Hle', Hin, Hy.
  - rewrite <- Ey'. apply Hle, Hin, Hy'.
Qed.

(** ** The frame of the grid *)

Lemma map_nonempty {A B} (f : A -> B) (l : list A) :
  l <> [] -> map f l <> [].
Proof. destruct l; [congruence|discriminate]. Qed.

Lemma grid_frame_spec (data : list Obstacle) :
  data <> [] ->
  exists n_lo n_hi e_lo e_hi,
    is_min n_lo (north_lows data) /\ is_max n_hi (north_highs data) /\
    is_min e_lo (east_lows data) /\ is_max e_hi (east_highs data) /\
    grid_frame data =
    Ok (np.floor n_lo, np.floor e_lo,
        int (np.ceil (np.ceil n_hi -. np.floor n_lo)),
        int (np.ceil (np.ceil e_hi -. np.floor e_lo))).
Proof.
  intros Hne. unfold grid_frame.
  destruct (np_min_spec (north_lows data)) as (n_lo & -> & Hn_lo);
    [now apply map_nonempty|].
  destruct (np_max_spec (north_highs data)) as (n_hi & -> & Hn_hi);
    [now apply map_nonempty|].
  destruct (np_min_spec (east_lows data)) as (e_lo & -> & He_lo);
    [now apply map_nonempty|].
  destruct (np_max_spec (east_highs data)) as (e_hi & -> & He_hi);
    [now apply map_nonempty|].
  exists n_lo, n_hi, e_lo, e_hi. auto.
Qed.

Lemma grid_frame_empty :
  grid_frame [] = Raise (ValueError
    "zero-size array to reduction operation minimum which has no identity").
Proof. reflexivity. Qed.

(** [create_grid] is: compute the frame, allocate, run the loop. *)
Lemma create_grid_unfold (data : list Obstacle) (a m : Q) :
  create_grid data a m =
  (fr <- grid_frame data ;;
   let '(north_min, east_min, north_size, east_size) := fr in
   grid <- np.zeros (north_size, east_size) ;;
   Ok (populate a m north_min east_min north_size east_size data grid)).
Proof.
  unfold create_grid, grid_frame.
  destruct (np.min (north_lows data)); [|reflexivity].
  destruct (np.max (north_highs data)); [|reflexivity].
  destruct (np.min (east_lows data)); [|reflexivity].
  destruct (np.max (east_highs data)); reflexivity.
Qed.

Lemma grid_frame_perm (data data' : list Obstacle) :
  Permutation data data' -> grid_frame data' = grid_frame data.
Proof.
  intros HP.
  destruct data as [|o rest].
  { apply Permutation_nil in HP. now subst. }
  assert (Hne : o :: rest <> []) by discriminate.
  assert (Hne' : data' <> []).
  { intros ->. apply Permutation_sym, Permutation_nil in HP. discriminate. }
  destruct (grid_frame_spec _ Hne) as (a & b & c & d & Ha & Hb & Hc & Hd & ->).
  destruct (grid_frame_spec _ Hne')
    as (a' & b' & c' & d' & Ha' & Hb' & Hc' & Hd' & ->).
  assert (Hin : forall f : Obstacle -> Q,
             forall y, In y (map f (o :: rest)) <-> In y (map f data')).
  { intros f y. split; apply Permutation_in, Permutation_map;
      [assumption|now apply Permutation_sym]. }
  assert (Ea : a == a') by (eapply is_min_unique; eauto; apply Hin).
  assert (Eb : b == b') by (eapply is_max_unique; eauto; apply Hin).
  assert (Ec : c == c') by (eapply is_min_unique; eauto; apply Hin).
  assert (Ed : d == d') by (eapply is_max_unique; eauto; apply Hin).
  unfold np.floor, np.ceil.
  rewrite (Qfloor_comp _ _ Ea), (Qfloor_comp _ _ Ec),
          (Qceiling_comp _ _ Eb), (Qceiling_comp _ _ Ed).
  reflexivity.
Qed.

(** With non-negative half-extents both sizes are non-negative. *)
Lemma is_min_le_is_max (lo hi : Q) (f g : Obstacle -> Q) (data : list Obstacle) :
  data <> [] -> (forall o, In o data -> f o <= g o) ->
  is_min lo (map f data) -> is_max hi (map g data) ->
  np.floor lo <= np.ceil hi.
Proof.
  intros Hne Hfg [_ Hlo] [_ Hhi].
  destruct data as [|o rest]; [congruence|].
  assert (H : lo <= hi).
  { eapply Qle_trans; [apply Hlo; now left|].
    eapply Qle_trans; [apply Hfg; now left|]. apply Hhi. now left. }
  unfold np.floor, np.ceil.
  eapply Qle_trans; [apply Qfloor_le|].
  eapply Qle_trans; [exact H|apply Qle_ceiling].
Qed.

(** The size computed from ordered bounds is non-negative. *)
Lemma size_nonneg (lo hi : Q) :
  lo <= hi -> (0 <= int (np.ceil (hi -. lo)))%Z.
Proof.
  intros H. unfold np.ceil. rewrite int_inject_Z.
  change 0%Z with (Qceiling 0). apply Qceiling_resp_le, sub_nonneg, H.
Qed.

Lemma grid_frame_valid (data : list Obstacle) :
  valid_input data ->
  exists north_min east_min north_size east_size,
    grid_frame data = Ok (north_min, east_min, north_size, east_size) /\
    (0 <= north_size)%Z /\ (0 <= east_size)%Z.
Proof.
  intros [Hne Hext].
  destruct (grid_frame_spec _ Hne) as (a & b & c & d & Ha & Hb & Hc & Hd & ->).
  do 4 eexists. split; [reflexivity|].
  rewrite Forall_forall in Hext. split.
  - apply size_nonneg. eapply is_min_le_is_max; eauto.
    intros o Ho. apply half_extent_order, (Hext o Ho).
  - apply size_nonneg. eapply is_min_le_is_max; eauto.
    intros o Ho. apply half_extent_order, (Hext o Ho).
Qed.

(** ** The marking loop *)

Section Loop.

Variables (a m north_min east_min : Q) (north_size east_size : Z).

Local Abbreviation body :=
  (loop_body a m north_min east_min north_size east_size).
Local Abbreviation rect :=
  (obstacle m north_min east_min north_size east_size).
Local Abbreviation run :=
  (populate a m north_min east_min north_size east_size).
Local Abbreviation marks :=
  (contributes a m north_min east_min north_size east_size).

Lemma loop_body_skip grid o :
  altitude_test a m o = false -> body grid o = grid.
Proof. intros H. unfold loop_body. now rewrite H. Qed.

Lemma loop_body_mark grid o :
  altitude_test a m o = true ->
  body grid o =
  let '(o0, o1, o2, o3) := rect o in
  np.setitem grid o0 (o1 + 1) o2 (o3 + 1) 1.
Proof. intros H. unfold loop_body. now rewrite H. Qed.

Lemma shape_loop_body grid o : np.shape (body grid o) = np.shape grid.
Proof.
  unfold loop_body. destruct (altitude_test a m o); [|reflexivity].
  destruct (obstacle _ _ _ _ _ o) as [[[o0 o1] o2] o3].
  apply shape_setitem.
Qed.

Lemma well_formed_loop_body grid o :
  well_formed grid -> well_formed (body grid o).
Proof.
  intros H. unfold loop_body.
  destruct (altitude_test a m o); [|assumption].
  destruct (obstacle _ _ _ _ _ o) as [[[o0 o1] o2] o3].
  now apply well_formed_setitem.
Qed.

Lemma shape_populate data :
  forall grid, np.shape (run data grid) = np.shape grid.
Proof.
  induction data as [|o rest IH]; intros grid; [reflexivity|].
  unfold populate in *. simpl. rewrite IH. apply shape_loop_body.
Qed.

Lemma well_formed_populate data :
  forall grid, well_formed grid -> well_formed (run data grid).
Proof.
  induction data as [|o rest IH]; intros grid H; [assumption|].
  unfold populate in *. simpl. apply IH, well_formed_loop_body, H.
Qed.

Lemma getitem_loop_body grid o r c :
  well_formed grid ->
  (0 <= r < fst (np.shape grid))%Z -> (0 <= c < snd (np.shape grid))%Z ->
  np.getitem (body grid o) r c =
  if marks (np.shape grid) r c o then Some 1 else np.getitem grid r c.
Proof.
  intros Hwf Hr Hc. unfold contributes, loop_body, written.
  destruct (altitude_test a m o); [|reflexivity].
  destruct (obstacle _ _ _ _ _ o) as [[[o0 o1] o2] o3].
  now rewrite getitem_setitem.
Qed.

Lemma getitem_populate data :
  forall grid r c,
    well_formed grid ->
    (0 <= r < fst (np.shape grid))%Z -> (0 <= c < snd (np.shape grid))%Z ->
    np.getitem (run data grid) r c =
    if existsb (marks (np.shape grid) r c) data
    then Some 1 else np.getitem grid r c.
Proof.
  induction data as [|o rest IH]; intros grid r c Hwf Hr Hc; [reflexivity|].
  unfold populate in *. simpl.
  rewrite IH; rewrite ?shape_loop_body;
    auto using well_formed_loop_body.
  rewrite getitem_loop_body by assumption.
  destruct (marks (np.shape grid) r c o); simpl; [|reflexivity].
  destruct (existsb _ rest); reflexivity.
Qed.

(** For a cell of the grid the slices select exactly the closed index
    rectangle. *)
Lemma written_in_rectangle o r c :
  (0 <= r < north_size)%Z -> (0 <= c < east_size)%Z ->
  written (rect o) north_size east_size r c = true <->
  in_rectangle (rect o) r c.
Proof.
  intros Hr Hc. unfold obstacle, written, in_rectangle.
  rewrite andb_true_iff.
  rewrite !in_slice_closed;
    try assumption; try (apply int_clip_range; lia).
  reflexivity.
Qed.

Lemma marks_spec o r c :
  (0 <= r < north_size)%Z -> (0 <= c < east_size)%Z ->
  marks (north_size, east_size) r c o = true <->
  altitude_test a m o = true /\ in_rectangle (rect o) r c.
Proof.
  intros Hr Hc. unfold contributes. cbn [fst snd].
  rewrite andb_true_iff, written_in_rectangle by assumption. reflexivity.
Qed.

(** The cells of the grid after the loop, started on the zero grid. *)
Lemma populate_zeros_cell data r c :
  (0 <= r < north_size)%Z -> (0 <= c < east_size)%Z ->
  np.getitem
    (run data
       (np.mkArray (north_size, east_size)
          (repeat (repeat 0 (Z.to_nat east_size)) (Z.to_nat north_size))))
    r c =
  Some (if existsb (marks (north_size, east_size) r c) data
        then BLOCKED else FREE).
Proof.
  intros Hr Hc.
  rewrite getitem_populate; simpl; try assumption.
  - rewrite getitem_zeros by assumption.
    destruct (existsb _ data); reflexivity.
  - apply well_formed_zeros; lia.
Qed.

Lemma populate_zeros_blocked data r c :
  (0 <= r < north_size)%Z -> (0 <= c < east_size)%Z ->
  np.getitem
    (run data
       (np.mkArray (north_size, east_size)
          (repeat (repeat 0 (Z.to_nat east_size)) (Z.to_nat north_size))))
    r c = Some BLOCKED <->
  exists o, In o data /\ altitude_test a m o = true /\
            in_rectangle (rect o) r c.
Proof.
  intros Hr Hc. rewrite populate_zeros_cell by assumption.
  destruct (existsb _ data) eqn:E.
  - split; [intros _|reflexivity].
    apply existsb_exists in E. destruct E as (o & Ho & Hm).
    apply marks_spec in Hm; try assumption. eauto.
  - split; [discriminate|].
    intros (o & Ho & Hm). exfalso.
    assert (E' : existsb (marks (north_size, east_size) r c) data = true).
    { apply existsb_exists. exists o. split; [assumption|].
      apply marks_spec; assumption. }
    congruence.
Qed.

End Loop.

(** ** create_grid as a whole *)

Lemma create_grid_ok data a m north_min east_min north_size east_size :
  grid_frame data = Ok (north_min, east_min, north_size, east_size) ->
  (0 <= north_size)%Z -> (0 <= east_size)%Z ->
  create_grid data a m =
  Ok (populate a m north_min east_min north_size east_size data
        (np.mkArray (north_size, east_size)
           (repeat (repeat 0 (Z.to_nat east_size)) (Z.to_nat north_size)))).
Proof.
  intros Hfr Hn He. rewrite create_grid_unfold, Hfr. cbn [bind].
  rewrite zeros_ok by assumption. reflexivity.
Qed.

Lemma create_grid_inv data a m g :
  create_grid data a m = Ok g ->
  exists north_min east_min north_size east_size,
    grid_frame data = Ok (north_min, east_min, north_size, east_size) /\
    (0 <= north_size)%Z /\ (0 <= east_size)%Z /\
    g = populate a m north_min east_min north_size east_size data
          (np.mkArray (north_size, east_size)
             (repeat (repeat 0 (Z.to_nat east_size)) (Z.to_nat north_size))).
Proof.
  rewrite create_grid_unfold.
  destruct (grid_frame data) as [[[[nmin emin] ns] es]|e]; [|discriminate].
  cbn [bind]. destruct (np.zeros (ns, es)) as [g0|e] eqn:Ez; [|discriminate].
  cbn [bind]. intros [= <-].
  apply zeros_inv in Ez. simpl in Ez. destruct Ez as (Hn & He & ->).
  exists nmin, emin, ns, es. auto.
Qed.

Lemma create_grid_raise data a m e :
  create_grid data a m = Raise e ->
  grid_frame data = Raise e \/
  exists north_min east_min north_size east_size,
    grid_frame data = Ok (north_min, east_min, north_size, east_size) /\
    (north_size < 0 \/ east_size < 0)%Z.
Proof.
  rewrite create_grid_unfold.
  destruct (grid_frame data) as [[[[nmin emin] ns] es]|e0].
  - cbn [bind]. destruct (np.zeros (ns, es)) as [g0|e1] eqn:Ez; [discriminate|].
    intros _. right. apply zeros_raise in Ez. simpl in Ez.
    exists nmin, emin, ns, es. auto.
  - simpl. intros [= <-]. now left.
Qed.

Lemma create_grid_well_formed data a m g :
  create_grid data a m = Ok g -> well_formed g.
Proof.
  intros H. apply create_grid_inv in H.
  destruct H as (nmin & emin & ns & es & _ & Hn & He & ->).
  apply well_formed_populate, well_formed_zeros; assumption.
Qed.

Lemma create_grid_frame_shape data a m g nmin emin ns es :
  create_grid data a m = Ok g ->
  grid_frame data = Ok (nmin, emin, ns, es) ->
  np.shape g = (ns, es).
Proof.
  intros H Hfr. apply create_grid_inv in H.
  destruct H as (nmin' & emin' & ns' & es' & Hfr' & Hn & He & ->).
  rewrite Hfr in Hfr'. injection Hfr' as <- <- <- <-.
  now rewrite shape_populate.
Qed.

Lemma existsb_perm {A} (f : A -> bool) (l l' : list A) :
  Permutation l l' -> existsb f l = existsb f l'.
Proof.
  intros HP.
  destruct (existsb f l) eqn:E; destruct (existsb f l') eqn:E';
    try reflexivity; exfalso.
  - apply existsb_exists in E. destruct E as (x & Hx & Hf).
    assert (existsb f l' = true); [|congruence].
    apply existsb_exists. exists x. split; [|assumption].
    eapply Permutation_in; eauto.
  - apply existsb_exists in E'. destruct E' as (x & Hx & Hf).
    assert (existsb f l = true); [|congruence].
    apply existsb_exists. exists x. split; [|assumption].
    exact (Permutation_in x (Permutation_sym HP) Hx).
Qed.

Lemma valid_input_perm data data' :
  Permutation data data' -> valid_input data -> valid_input data'.
Proof.
  intros HP [Hne Hext]. split.
  - intros ->. apply Permutation_sym, Permutation_nil in HP. congruence.
  - rewrite Forall_forall in *. intros o Ho. apply Hext.
    exact (Permutation_in o (Permutation_sym HP) Ho).
Qed.

Lemma Forall_map_idx {A} (P : A -> Prop) (f : Z -> A -> A) (l : list A) :
  (forall i x, P x -> P (f i x)) ->
  forall i, Forall P l -> Forall P (np.map_idx f i l).
Proof.
  intros Hf. induction l as [|x xs IH]; intros i H; simpl; [constructor|].
  inversion H; subst. constructor; auto.
Qed.

Lemma binary_setitem a r0 r1 c0 c1 :
  Forall (Forall binary) (np.rows a) ->
  Forall (Forall binary) (np.rows (np.setitem a r0 r1 c0 c1 1)).
Proof.
  unfold np.setitem. destruct a as [[n m] rs]; simpl. intros H.
  apply Forall_map_idx; [|assumption].
  intros i row Hrow. destruct (np.in_slice r0 r1 n i); [|assumption].
  apply Forall_map_idx; [|assumption].
  intros j x Hx. destruct (np.in_slice c0 c1 m j); [now right|assumption].
Qed.

Lemma binary_populate a m nmin emin ns es data :
  forall grid,
    Forall (Forall binary) (np.rows grid) ->
    Forall (Forall binary)
      (np.rows (populate a m nmin emin ns es data grid)).
Proof.
  induction data as [|o rest IH]; intros grid H; [assumption|].
  unfold populate in *. simpl. apply IH.
  unfold loop_body. destruct (altitude_test a m o); [|assumption].
  destruct (obstacle _ _ _ _ _ o) as [[[o0 o1] o2] o3].
  now apply binary_setitem.
Qed.

(** A footprint that contains the unit square of a cell has the cell in
    its index rectangle. *)
Lemma covered_cell_in_rectangle m nmin emin ns es o r c :
  (0 <= r < ns)%Z -> (0 <= c < es)%Z ->
  covers_cell (clamped_footprint m nmin emin ns es o) r c ->
  in_rectangle (obstacle m nmin emin ns es o) r c.
Proof.
  intros Hr Hc. unfold covers_cell, clamped_footprint, in_rectangle, obstacle.
  intros (H1 & H2 & H3 & H4).
  rewrite !int_nonneg by (apply clip_range; lia).
  assert (Hup : forall (k : Z) (x : Q), inject_Z k + 1 <= x -> (k <= Qfloor x)%Z).
  { intros k x H. rewrite <- (Qfloor_Z k). apply Qfloor_resp_le.
    eapply Qle_trans; [|exact H].
    rewrite <- (Qplus_0_r (inject_Z k)) at 1.
    apply Qplus_le_r. discriminate. }
  assert (Hdn : forall (k : Z) (x : Q), x <= inject_Z k -> (Qfloor x <= k)%Z).
  { intros k x H. rewrite <- (Qfloor_Z k). now apply Qfloor_resp_le. }
  repeat split; auto.
Qed.

(** ** Reading the result *)

Lemma create_grid_blocked_spec data a m g :
  create_grid data a m = Ok g ->
  exists north_min east_min north_size east_size,
    grid_frame data = Ok (north_min, east_min, north_size, east_size) /\
    forall r c,
      np.getitem g r c = Some BLOCKED <->
      (0 <= r < north_size)%Z /\ (0 <= c < east_size)%Z /\
      exists o, In o data /\ altitude_test a m o = true /\
        in_rectangle (obstacle m north_min east_min north_size east_size o)
                     r c.
Proof.
  intros H. apply create_grid_inv in H.
  destruct H as (nmin & emin & ns & es & Hfr & Hn & He & ->).
  exists nmin, emin, ns, es. split; [assumption|].
  intros r c. split.
  - intros Hb.
    assert (Hrange : (0 <= r < ns)%Z /\ (0 <= c < es)%Z).
    { apply getitem_in_range in Hb.
      - now rewrite shape_populate in Hb.
      - now apply well_formed_populate, well_formed_zeros. }
    destruct Hrange as [Hr Hc]. repeat (split; [lia|]).
    now apply populate_zeros_blocked in Hb.
  - intros (Hr & Hc & Hex). now apply populate_zeros_blocked.
Qed.

Lemma grid_frame_nonempty data fr : grid_frame data = Ok fr -> data <> [].
Proof. intros H ->. discriminate H. Qed.

Lemma existsb_incl {A} (f : A -> bool) (l l' : list A) :
  (forall x, In x l -> In x l') ->
  existsb f l = true -> existsb f l' = true.
Proof.
  intros Hin H. apply existsb_exists in H. destruct H as (x & Hx & Hf).
  apply existsb_exists. exists x. auto.
Qed.

Lemma existsb_same_elements {A} (f : A -> bool) (l l' : list A) :
  (forall x, In x l <-> In x l') -> existsb f l = existsb f l'.
Proof.
  intros Hin.
  destruct (existsb f l) eqn:E; destruct (existsb f l') eqn:E';
    try reflexivity; exfalso.
  - apply (existsb_incl f l l') in E; [congruence|apply Hin].
  - apply (existsb_incl f l' l) in E'; [congruence|apply Hin].
Qed.

Lemma grid_frame_same_elements (data data' : list Obstacle) :
  (forall o, In o data <-> In o data') ->
  grid_frame data' = grid_frame data.
Proof.
  intros Hsame.
  destruct data as [|o rest].
  { destruct data' as [|o' rest']; [reflexivity|].
    exfalso. apply (Hsame o'). now left. }
  assert (Hne : o :: rest <> []) by discriminate.
  assert (Hne' : data' <> []).
  { intros ->. apply (Hsame o). now left. }
  destruct (grid_frame_spec _ Hne) as (a & b & c & d & Ha & Hb & Hc & Hd & ->).
  destruct (grid_frame_spec _ Hne')
    as (a' & b' & c' & d' & Ha' & Hb' & Hc' & Hd' & ->).
  assert (Hin : forall f : Obstacle -> Q,
             forall y, In y (map f (o :: rest)) <-> In y (map f data')).
  { intros f y. rewrite !in_map_iff.
    split; intros (x & Hx & Hi); exists x; (split; [assumption|]);
      apply Hsame; assumption. }
  assert (Ea : a == a') by (eapply is_min_unique; eauto; apply Hin).
  assert (Eb : b == b') by (eapply is_max_unique; eauto; apply Hin).
  assert (Ec : c == c') by (eapply is_min_unique; eauto; apply Hin).
  assert (Ed : d == d') by (eapply is_max_unique; eauto; apply Hin).
  unfold np.floor, np.ceil.
  rewrite (Qfloor_comp _ _ Ea), (Qfloor_comp _ _ Ec),
          (Qceiling_comp _ _ Eb), (Qceiling_comp _ _ Ed).
  reflexivity.
Qed.

(** ** Rounding *)

Lemma Qfloor_le_of_lt (x : Q) (k : Z) :
  x < inject_Z k + 1 -> (Qfloor x <= k)%Z.
Proof.
  intros H. assert (L : inject_Z (Qfloor x) < inject_Z (k + 1)).
  { rewrite inject_Z_plus. pose proof (Qfloor_le x).
    change (inject_Z 1) with 1. lra. }
  rewrite <- Zlt_Qlt in L. lia.
Qed.

Lemma Qfloor_ge_of_le (x : Q) (k : Z) :
  inject_Z k <= x -> (k <= Qfloor x)%Z.
Proof.
  intros H. apply Qfloor_resp_le in H. now rewrite Qfloor_Z in H.
Qed.

(** ** One axis of the index rectangle *)

(** A position whose half-open unit interval meets [[lo, hi]] lies
    between the two clamped and truncated bounds. *)
Lemma axis_sound (lo hi : Q) (n k : Z) :
  (0 <= k < n)%Z -> lo < inject_Z k + 1 -> inject_Z k <= hi ->
  (int (np.clip lo 0 (inject_Z (n - 1))) <= k <=
   int (np.clip hi 0 (inject_Z (n - 1))))%Z.
Proof.
  intros Hk Hlo Hhi.
  rewrite !int_nonneg by (apply clip_range; lia).
  assert (K0 : 0 <= inject_Z k)
    by (change 0 with (inject_Z 0); rewrite <- Zle_Qle; lia).
  assert (K1 : inject_Z k <= inject_Z (n - 1)) by (rewrite <- Zle_Qle; lia).
  unfold np.clip. split.
  - apply Qfloor_le_of_lt. apply Q.min_lt_iff. left.
    apply Q.max_lub_lt; lra.
  - apply Qfloor_ge_of_le. apply Q.min_glb; [|assumption].
    apply Q.max_le_iff. now left.
Qed.

(** ** Slice assignments of one value *)

Lemma map_idx_ext {A} (f g : Z -> A -> A) (l : list A) :
  forall i, (forall k x, f k x = g k x) ->
            np.map_idx f i l = np.map_idx g i l.
Proof.
  induction l as [|x xs IH]; intros i H; simpl; [reflexivity|].
  now rewrite H, (IH (i + 1)%Z H).
Qed.

Lemma map_idx_compose {A} (f g : Z -> A -> A) (l : list A) :
  forall i, np.map_idx f i (np.map_idx g i l) =
            np.map_idx (fun k x => f k (g k x)) i l.
Proof.
  induction l as [|x xs IH]; intros i; simpl; [reflexivity|].
  now rewrite IH.
Qed.

Lemma setitem_comm a r0 r1 c0 c1 r0' r1' c0' c1' v :
  np.setitem (np.setitem a r0 r1 c0 c1 v) r0' r1' c0' c1' v =
  np.setitem (np.setitem a r0' r1' c0' c1' v) r0 r1 c0 c1 v.
Proof.
  unfold np.setitem. destruct a as [[n m] rs]; simpl. f_equal.
  rewrite !map_idx_compose. apply map_idx_ext. intros k row.
  destruct (np.in_slice r0 r1 n k), (np.in_slice r0' r1' n k);
    try reflexivity.
  rewrite !map_idx_compose. apply map_idx_ext. intros j x.
  destruct (np.in_slice c0 c1 m j), (np.in_slice c0' c1' m j); reflexivity.
Qed.

Lemma setitem_idem a r0 r1 c0 c1 v :
  np.setitem (np.setitem a r0 r1 c0 c1 v) r0 r1 c0 c1 v =
  np.setitem a r0 r1 c0 c1 v.
Proof.
  unfold np.setitem. destruct a as [[n m] rs]; simpl. f_equal.
  rewrite !map_idx_compose. apply map_idx_ext. intros k row.
  destruct (np.in_slice r0 r1 n k); try reflexivity.
  rewrite !map_idx_compose. apply map_idx_ext. intros j x.
  destruct (np.in_slice c0 c1 m j); reflexivity.
Qed.

(** ** The result in terms of the source's expressions *)

(** Everything [create_grid] computes, with the source's expressions
    written out. *)
Lemma create_grid_spelled_out data a m g :
  create_grid data a m = Ok g ->
  exists n_lo n_hi e_lo e_hi,
    is_min n_lo (map (fun o => north o -. d_north o) data) /\
    is_max n_hi (map (fun o => north o +. d_north o) data) /\
    is_min e_lo (map (fun o => east o -. d_east o) data) /\
    is_max e_hi (map (fun o => east o +. d_east o) data) /\
    let north_min := np.floor n_lo in
    let east_min := np.floor e_lo in
    let rows := int (np.ceil (np.ceil n_hi -. north_min)) in
    let cols := int (np.ceil (np.ceil e_hi -. east_min)) in
    grid_frame data = Ok (north_min, east_min, rows, cols) /\
    (0 <= rows)%Z /\ (0 <= cols)%Z /\
    well_formed g /\ np.shape g = (rows, cols) /\
    forall r c,
      np.getitem g r c = Some BLOCKED <->
      (0 <= r < rows)%Z /\ (0 <= c < cols)%Z /\
      exists o, In o data /\ a < alt o +. d_alt o +. m /\
        (int (np.clip (north o -. d_north o -. m -. north_min)
                      0 (inject_Z (rows - 1))) <= r <=
         int (np.clip (north o +. d_north o +. m -. north_min)
                      0 (inject_Z (rows - 1))))%Z /\
        (int (np.clip (east o -. d_east o -. m -. east_min)
                      0 (inject_Z (cols - 1))) <= c <=
         int (np.clip (east o +. d_east o +. m -. east_min)
                      0 (inject_Z (cols - 1))))%Z.
Proof.
  intros H.
  destruct (create_grid_blocked_spec _ _ _ _ H)
    as (nmin & emin & ns & es & Hfr & Hb).
  pose proof (create_grid_well_formed _ _ _ _ H) as Hwf.
  pose proof (create_grid_frame_shape _ _ _ _ _ _ _ _ H Hfr) as Hs.
  apply create_grid_inv in H.
  destruct H as (nmin' & emin' & ns' & es' & Hfr' & Hn & He & _).
  rewrite Hfr in Hfr'. injection Hfr' as <- <- <- <-.
  destruct (grid_frame_spec data (grid_frame_nonempty _ _ Hfr))
    as (n_lo & n_hi & e_lo & e_hi & H1 & H2 & H3 & H4 & E).
  rewrite E in Hfr. injection Hfr as <- <- <- <-.
  exists n_lo, n_hi, e_lo, e_hi.
  repeat (split; [assumption|]). cbv zeta.
  repeat (split; [assumption|]).
  intros r c. rewrite Hb. split.
  - intros (Hr & Hc & o & Ho & Ht & Hrect).
    repeat (split; [assumption|]). exists o. split; [assumption|].
    split; [now apply Qgtb_spec|exact Hrect].
  - intros (Hr & Hc & o & Ho & Ht & Hrect).
    repeat (split; [assumption|]). exists o. split; [assumption|].
    split; [now apply Qgtb_spec|exact Hrect].
Qed.

(** The index rectangle grows with the margin. *)
Lemma in_rectangle_margin_mono m1 m2 nmin emin ns es o r c :
  m1 <= m2 -> (0 <= r < ns)%Z -> (0 <= c < es)%Z ->
  in_rectangle (obstacle m1 nmin emin ns es o) r c ->
  in_rectangle (obstacle m2 nmin emin ns es o) r c.
Proof.
  intros Hm Hr Hc. unfold in_rectangle, obstacle.
  intros [[H0 H1] [H2 H3]].
  assert (L0 : north o -. d_north o -. m2 -. nmin <=
               north o -. d_north o -. m1 -. nmin).
  { apply sub_mono; [|apply Qle_refl].
    apply sub_mono; [apply Qle_refl|assumption]. }
  assert (L1 : north o +. d_north o +. m1 -. nmin <=
               north o +. d_north o +. m2 -. nmin).
  { apply sub_mono; [|apply Qle_refl].
    apply add_mono; [apply Qle_refl|assumption]. }
  assert (L2 : east o -. d_east o -. m2 -. emin <=
               east o -. d_east o -. m1 -. emin).
  { apply sub_mono; [|apply Qle_refl].
    apply sub_mono; [apply Qle_refl|assumption]. }
  assert (L3 : east o +. d_east o +. m1 -. emin <=
               east o +. d_east o +. m2 -. emin).
  { apply sub_mono; [|apply Qle_refl].
    apply add_mono; [apply Qle_refl|assumption]. }
  apply (int_clip_mono _ _ ns) in L0; [|lia].
  apply (int_clip_mono _ _ ns) in L1; [|lia].
  apply (int_clip_mono _ _ es) in L2; [|lia].
  apply (int_clip_mono _ _ es) in L3; [|lia].
  lia.
Qed.

(** The altitude test is monotone in the margin and antitone in the
    altitude. *)
Lemma altitude_test_mono a1 a2 m1 m2 o :
  a2 <= a1 -> m1 <= m2 ->
  altitude_test a1 m1 o = true -> altitude_test a2 m2 o = true.
Proof.
  intros Ha Hm. unfold altitude_test. rewrite !Qgtb_spec. intros H.
  assert (L : alt o +. d_alt o +. m1 <= alt o +. d_alt o +. m2)
    by (apply add_mono; [apply Qle_refl|assumption]).
  lra.
Qed.

(** With non-negative half-extents and margin the index rectangle of a
    row is not inverted. *)
Lemma rectangle_ordered m nmin emin ns es o :
  (1 <= ns)%Z -> (1 <= es)%Z ->
  0 <= d_north o -> 0 <= d_east o -> 0 <= m ->
  (int (np.clip (north o -. d_north o -. m -. nmin) 0 (inject_Z (ns - 1)))
   <= int (np.clip (north o +. d_north o +. m -. nmin)
                   0 (inject_Z (ns - 1))))%Z /\
  (int (np.clip (east o -. d_east o -. m -. emin) 0 (inject_Z (es - 1)))
   <= int (np.clip (east o +. d_east o +. m -. emin)
                   0 (inject_Z (es - 1))))%Z.
Proof.
  intros Hn He Dn De Hm. split; apply int_clip_mono; try assumption.
  - apply sub_mono; [|apply Qle_refl].
    apply sub_add_order; [|assumption]. now apply half_extent_order.
  - apply sub_mono; [|apply Qle_refl].
    apply sub_add_order; [|assumption]. now apply half_extent_order.
Qed.

(** ** Computed examples *)

Lemma scenario_A_computed :
  create_grid [scenario_obstacle] 1 1 =
    Ok (np.mkArray (4, 4)%Z (repeat (repeat BLOCKED 4) 4)) /\
  grid_frame [scenario_obstacle] = Ok (-2, -2, 4%Z, 4%Z).
Proof. split; vm_compute; reflexivity. Qed.

(** The table on which the source's [2.9 - 0.9] is [2.0]: rows 2 and 3
    are BLOCKED, rows 0 and 1 are FREE. *)
Lemma rounding_table_computed :
  create_grid rounding_table 1 0 = Ok rounding_grid /\
  grid_frame rounding_table = Ok (0, 0, 4%Z, 2%Z).
Proof. split; vm_compute; reflexivity. Qed.

(** The source's [2.9 - 0.9] is [2.0], [0.1 + 0.7] is
    [0.7999999999999999] and [1e17 - 9] is [1e17 - 16]. *)
Lemma float64_examples :
  literal (29 # 10) -. literal (9 # 10) == 2 /\
  literal (1 # 10) +. literal (7 # 10) ==
    literal (7999999999999999 # 10000000000000000) /\
  inject_Z (10 ^ 17) -. 9 == inject_Z (10 ^ 17 - 16).
Proof. vm_compute. repeat split. Qed.

Lemma valid_scenario : valid_input [scenario_obstacle].
Proof. split; [discriminate|]. repeat constructor; discriminate. Qed.

Lemma valid_point : valid_input [point_obstacle].
Proof. split; [discriminate|]. repeat constructor; discriminate. Qed.

(** Every cell that can be read holds 0 or 1. *)
Lemma create_grid_cells_are_binary data a m g :
  create_grid data a m = Ok g ->
  forall r c v, np.getitem g r c = Some v -> v = FREE \/ v = BLOCKED.
Proof.
  intros H r c v Hv. apply create_grid_inv in H.
  destruct H as (nmin & emin & ns & es & _ & _ & _ & ->).
  assert (Hbin : Forall (Forall binary)
            (np.rows (populate a m nmin emin ns es data
               (np.mkArray (ns, es)
                  (repeat (repeat 0 (Z.to_nat es)) (Z.to_nat ns)))))).
  { apply binary_populate. simpl.
    apply Forall_forall. intros row Hrow. apply repeat_spec in Hrow.
    subst row. apply Forall_forall. intros x Hx.
    apply repeat_spec in Hx. subst x. now left. }
  revert Hv. unfold np.getitem.
  destruct ((r <? 0) || (c <? 0))%Z; [discriminate|].
  destruct (nth_error _ (Z.to_nat r)) as [row|] eqn:E; [|discriminate].
  intros Hv. apply nth_error_In in E, Hv.
  rewrite Forall_forall in Hbin. specialize (Hbin row E).
  rewrite Forall_forall in Hbin. exact (Hbin v Hv).
Qed.

(** When [create_grid] raises: in the frame or at the allocation, neither
    of which sees the altitude or the margin. *)
Lemma create_grid_raise_iff data a m e :
  create_grid data a m = Raise e <->
  (grid_frame data = Raise e \/
   exists north_min east_min north_size east_size,
     grid_frame data = Ok (north_min, east_min, north_size, east_size) /\
     np.zeros (north_size, east_size) = Raise e).
Proof.
  rewrite create_grid_unfold.
  destruct (grid_frame data) as [[[[nmin emin] ns] es]|e0]; cbn [bind].
  - destruct (np.zeros (ns, es)) as [g0|e1] eqn:Ez; cbn [bind]; split.
    + discriminate.
    + intros [H|(? & ? & ? & ? & H & Hz)]; [discriminate H|].
      injection H as <- <- <- <-. rewrite Ez in Hz. discriminate Hz.
    + intros [= <-]. right. exists nmin, emin, ns, es. auto.
    + intros [H|(? & ? & ? & ? & H & Hz)]; [discriminate H|].
      injection H as <- <- <- <-. rewrite Ez in Hz. exact Hz.
  - split.
    + intros [= <-]. now left.
    + intros [[= <-]|(? & ? & ? & ? & H & _)]; [reflexivity|discriminate H].
Qed.

Lemma create_grid_cells_binary_rows data a m g :
  create_grid data a m = Ok g -> Forall (Forall binary) (np.rows g).
Proof.
  intros H. apply create_grid_inv in H.
  destruct H as (nmin & emin & ns & es & _ & _ & _ & ->).
  apply binary_populate. simpl.
  apply Forall_forall. intros row Hrow. apply repeat_spec in Hrow. subst row.
  apply Forall_forall. intros v Hv. apply repeat_spec in Hv. subst v.
  now left.
Qed.

(** * The claims *)

(** ** C1: which cells are BLOCKED *)

(** C1, as stated, fails.  On the single obstacle
    [(0, 0, 5, 2, 2, 5)] with altitude 1 and margin 1 the grid is 4 x 4
    with origin [(-2, -2)]; the clamped footprint is [[0, 3] x [0, 3]] in
    index space, which does not contain the unit square [[3, 4] x [3, 4]]
    of cell [(3, 3)], and yet that cell is BLOCKED. *)
Lemma blocked_iff_covered_fails :
  valid_input [scenario_obstacle] /\
  ~ blocked_iff_covered [scenario_obstacle] 1 1.
Proof.
  split; [exact valid_scenario|].
  intros H. destruct scenario_A_computed as [Hg Hf].
  specialize (H _ _ _ _ _ Hg Hf 3%Z 3%Z).
  destruct H as [H _]; [lia|lia|].
  destruct H as (o & Ho & _ & Hcov); [vm_compute; reflexivity|].
  destruct Ho as [<-|[]].
  destruct Hcov as (_ & Hhi & _).
  vm_compute in Hhi. apply Hhi. reflexivity.
Qed.

(** C1, amended: whenever [create_grid] returns a grid, each cell of it is
    BLOCKED or FREE, and a cell (r, c) is BLOCKED if and only if some row
    passes the altitude test [alt + d_alt + margin > altitude] and
    [int(clip(north - d_north - margin - north_min, 0, rows-1)) <= r <=
     int(clip(north + d_north + margin - north_min, 0, rows-1))], and
    likewise for [c] with the east bounds and [cols-1]; here every [+] and
    [-] is the float64 operation, [north_min] and [east_min] are the
    floors of the least low edges and [rows], [cols] the shape of the
    grid. *)
Theorem create_grid_blocked_iff (data : list Obstacle) (a m : Q)
    (g : np.ndarray) :
  create_grid data a m = Ok g ->
  exists n_lo n_hi e_lo e_hi,
    is_min n_lo (map (fun o => north o -. d_north o) data) /\
    is_max n_hi (map (fun o => north o +. d_north o) data) /\
    is_min e_lo (map (fun o => east o -. d_east o) data) /\
    is_max e_hi (map (fun o => east o +. d_east o) data) /\
    let north_min := np.floor n_lo in
    let east_min := np.floor e_lo in
    let rows := int (np.ceil (np.ceil n_hi -. north_min)) in
    let cols := int (np.ceil (np.ceil e_hi -. east_min)) in
    np.shape g = (rows, cols) /\
    forall r c,
      (0 <= r < rows)%Z -> (0 <= c < cols)%Z ->
      (np.getitem g r c = Some BLOCKED \/ np.getitem g r c = Some FREE) /\
      (np.getitem g r c = Some BLOCKED <->
       exists o, In o data /\ a < alt o +. d_alt o +. m /\
         (int (np.clip (north o -. d_north o -. m -. north_min)
                       0 (inject_Z (rows - 1))) <= r <=
          int (np.clip (north o +. d_north o +. m -. north_min)
                       0 (inject_Z (rows - 1))))%Z /\
         (int (np.clip (east o -. d_east o -. m -. east_min)
                       0 (inject_Z (cols - 1))) <= c <=
          int (np.clip (east o +. d_east o +. m -. east_min)
                       0 (inject_Z (cols - 1))))%Z).
Proof.
  intros H.
  pose proof (create_grid_cells_are_binary _ _ _ _ H) as Hbin.
  destruct (create_grid_spelled_out _ _ _ _ H)
    as (n_lo & n_hi & e_lo & e_hi & H1 & H2 & H3 & H4 & Hrest).
  exists n_lo, n_hi, e_lo, e_hi.
  repeat (split; [assumption|]).
  cbv zeta in *.
  destruct Hrest as (_ & _ & _ & Hwf & Hs & Hb).
  split; [assumption|].
  intros r c Hr Hc. split.
  - destruct (getitem_some g r c Hwf) as [v Hv];
      [rewrite Hs; exact Hr|rewrite Hs; exact Hc|].
    rewrite Hv. destruct (Hbin r c v Hv) as [->| ->]; [now right|now left].
  - rewrite Hb. split.
    + intros (_ & _ & Hex). exact Hex.
    + intros Hex. auto.
Qed.

Lemma create_grid_blocked_iff_witness :
  create_grid rounding_table 1 0 = Ok rounding_grid /\
  exists n_lo n_hi e_lo e_hi,
    is_min n_lo (map (fun o => north o -. d_north o) rounding_table) /\
    is_max n_hi (map (fun o => north o +. d_north o) rounding_table) /\
    is_min e_lo (map (fun o => east o -. d_east o) rounding_table) /\
    is_max e_hi (map (fun o => east o +. d_east o) rounding_table) /\
    let north_min := np.floor n_lo in
    let east_min := np.floor e_lo in
    let rows := int (np.ceil (np.ceil n_hi -. north_min)) in
    let cols := int (np.ceil (np.ceil e_hi -. east_min)) in
    np.shape rounding_grid = (rows, cols) /\
    forall r c,
      (0 <= r < rows)%Z -> (0 <= c < cols)%Z ->
      (np.getitem rounding_grid r c = Some BLOCKED \/
       np.getitem rounding_grid r c = Some FREE) /\
      (np.getitem rounding_grid r c = Some BLOCKED <->
       exists o, In o rounding_table /\ 1 < alt o +. d_alt o +. 0 /\
         (int (np.clip (north o -. d_north o -. 0 -. north_min)
                       0 (inject_Z (rows - 1))) <= r <=
          int (np.clip (north o +. d_north o +. 0 -. north_min)
                       0 (inject_Z (rows - 1))))%Z /\
         (int (np.clip (east o -. d_east o -. 0 -. east_min)
                       0 (inject_Z (cols - 1))) <= c <=
          int (np.clip (east o +. d_east o +. 0 -. east_min)
                       0 (inject_Z (cols - 1))))%Z).
Proof.
  split; [exact (proj1 rounding_table_computed)|].
  exact (create_grid_blocked_iff rounding_table 1 0 rounding_grid
           (proj1 rounding_table_computed)).
Defined.

(** ** C2: the altitude test *)

(** C2, as stated, fails: a row that passes the altitude test may mark no
    cell.  The point obstacle [(0, 0, 5, 0, 0, 5)] at altitude 1 with
    margin 1 passes ([5 + 5 + 1 > 1]) but its grid is 0 x 0; the obstacle
    [(0, 0, 5, 2, 2, 5)] at altitude 1 with margin -3 passes
    ([5 + 5 - 3 > 1]) but its index rectangle, rows 3 to 1, is inverted,
    and its 4 x 4 grid is all FREE. *)
Lemma passing_row_marks_nothing :
  valid_input [point_obstacle] /\
  ~ marks_exactly_when_passing point_obstacle 1 1 /\
  valid_input [scenario_obstacle] /\
  ~ marks_exactly_when_passing scenario_obstacle 1 (-3).
Proof.
  split; [exact valid_point|]. split; [|split; [exact valid_scenario|]].
  - intros H.
    assert (Hg : create_grid [point_obstacle] 1 1 =
                 Ok (np.mkArray (0, 0)%Z [])) by (vm_compute; reflexivity).
    destruct (proj1 (H _ Hg)) as (r & c & Hcell); [vm_compute; reflexivity|].
    unfold np.getitem in Hcell. simpl in Hcell.
    destruct ((r <? 0) || (c <? 0))%Z; [discriminate|].
    destruct (Z.to_nat r); discriminate.
  - intros H.
    assert (Hg : create_grid [scenario_obstacle] 1 (-3) =
                 Ok (np.mkArray (4, 4)%Z (repeat (repeat FREE 4) 4)))
      by (vm_compute; reflexivity).
    destruct (proj1 (H _ Hg)) as (r & c & Hcell); [vm_compute; reflexivity|].
    destruct (create_grid_cells_are_binary _ _ _ _ Hg r c _ Hcell) as [E|_].
    + discriminate E.
    + assert (Hfree : forall v, np.getitem
                (np.mkArray (4, 4)%Z (repeat (repeat FREE 4) 4)) r c
                = Some v -> v = FREE).
      { intros v. unfold np.getitem. simpl np.rows.
        destruct ((r <? 0) || (c <? 0))%Z; [discriminate|].
        destruct (Z.to_nat r) as [|[|[|[|n]]]]; simpl;
          try (destruct (Z.to_nat c) as [|[|[|[|k]]]]; simpl;
               try (intros [= <-]; reflexivity);
               destruct k; discriminate).
        destruct n; discriminate. }
      specialize (Hfree _ Hcell). discriminate Hfree.
Qed.

(** C2, amended: whenever [create_grid] returns a grid, a row marks cells
    only if [alt + d_alt + margin > altitude] (strict, in float64
    arithmetic): every BLOCKED cell lies in the closed index rectangle of a
    row that passes this test, so a row that fails it contributes no
    BLOCKED cell; and for a row that passes, every cell of the grid inside
    the row's index rectangle is BLOCKED.  That rectangle can be empty (a
    grid without cells, or bounds inverted by a negative margin); it holds
    at least one cell when the grid has a cell and the row's horizontal
    half-extents and the margin are non-negative. *)
Theorem altitude_test_gates_marking (data : list Obstacle) (a m : Q)
    (g : np.ndarray) :
  create_grid data a m = Ok g ->
  exists n_lo n_hi e_lo e_hi,
    is_min n_lo (map (fun o => north o -. d_north o) data) /\
    is_max n_hi (map (fun o => north o +. d_north o) data) /\
    is_min e_lo (map (fun o => east o -. d_east o) data) /\
    is_max e_hi (map (fun o => east o +. d_east o) data) /\
    let north_min := np.floor n_lo in
    let east_min := np.floor e_lo in
    let rows := int (np.ceil (np.ceil n_hi -. north_min)) in
    let cols := int (np.ceil (np.ceil e_hi -. east_min)) in
    let passes o := a < alt o +. d_alt o +. m in
    let inside o r c :=
      (int (np.clip (north o -. d_north o -. m -. north_min)
                    0 (inject_Z (rows - 1))) <= r <=
       int (np.clip (north o +. d_north o +. m -. north_min)
                    0 (inject_Z (rows - 1))))%Z /\
      (int (np.clip (east o -. d_east o -. m -. east_min)
                    0 (inject_Z (cols - 1))) <= c <=
       int (np.clip (east o +. d_east o +. m -. east_min)
                    0 (inject_Z (cols - 1))))%Z in
    np.shape g = (rows, cols) /\
    (forall r c,
       np.getitem g r c = Some BLOCKED ->
       exists o, In o data /\ passes o /\ inside o r c) /\
    (forall o r c,
       In o data -> passes o ->
       (0 <= r < rows)%Z -> (0 <= c < cols)%Z -> inside o r c ->
       np.getitem g r c = Some BLOCKED) /\
    (forall o,
       In o data -> passes o ->
       (1 <= rows)%Z -> (1 <= cols)%Z ->
       0 <= d_north o -> 0 <= d_east o -> 0 <= m ->
       exists r c, inside o r c /\ np.getitem g r c = Some BLOCKED).
Proof.
  intros H.
  destruct (create_grid_spelled_out _ _ _ _ H)
    as (n_lo & n_hi & e_lo & e_hi & H1 & H2 & H3 & H4 & Hrest).
  exists n_lo, n_hi, e_lo, e_hi.
  repeat (split; [assumption|]).
  cbv zeta in *.
  destruct Hrest as (_ & _ & _ & _ & Hs & Hb).
  split; [assumption|]. split; [|split].
  - intros r c Hcell. apply Hb in Hcell.
    destruct Hcell as (_ & _ & Hex). exact Hex.
  - intros o r c Ho Hp Hr Hc Hin. apply Hb.
    repeat (split; [assumption|]). exists o. auto.
  - intros o Ho Hp Hn He Dn De Hm.
    destruct (rectangle_ordered m (np.floor n_lo) (np.floor e_lo)
                _ _ o Hn He Dn De Hm) as [On Oe].
    pose proof (int_clip_range
                  (north o -. d_north o -. m -. np.floor n_lo) _ Hn) as Rn.
    pose proof (int_clip_range
                  (east o -. d_east o -. m -. np.floor e_lo) _ He) as Re.
    eexists. eexists. split.
    + split; (split; [apply Z.le_refl|eassumption]).
    + apply Hb. split; [lia|]. split; [lia|].
      exists o. split; [assumption|]. split; [assumption|].
      split; (split; [apply Z.le_refl|assumption]).
Qed.

Lemma altitude_test_gates_marking_witness :
  create_grid rounding_table 1 0 = Ok rounding_grid /\
  exists n_lo n_hi e_lo e_hi,
    is_min n_lo (map (fun o => north o -. d_north o) rounding_table) /\
    is_max n_hi (map (fun o => north o +. d_north o) rounding_table) /\
    is_min e_lo (map (fun o => east o -. d_east o) rounding_table) /\
    is_max e_hi (map (fun o => east o +. d_east o) rounding_table) /\
    let north_min := np.floor n_lo in
    let east_min := np.floor e_lo in
    let rows := int (np.ceil (np.ceil n_hi -. north_min)) in
    let cols := int (np.ceil (np.ceil e_hi -. east_min)) in
    let passes o := 1 < alt o +. d_alt o +. 0 in
    let inside o r c :=
      (int (np.clip (north o -. d_north o -. 0 -. north_min)
                    0 (inject_Z (rows - 1))) <= r <=
       int (np.clip (north o +. d_north o +. 0 -. north_min)
                    0 (inject_Z (rows - 1))))%Z /\
      (int (np.clip (east o -. d_east o -. 0 -. east_min)
                    0 (inject_Z (cols - 1))) <= c <=
       int (np.clip (east o +. d_east o +. 0 -. east_min)
                    0 (inject_Z (cols - 1))))%Z in
    np.shape rounding_grid = (rows, cols) /\
    (forall r c,
       np.getitem rounding_grid r c = Some BLOCKED ->
       exists o, In o rounding_table /\ passes o /\ inside o r c) /\
    (forall o r c,
       In o rounding_table -> passes o ->
       (0 <= r < rows)%Z -> (0 <= c < cols)%Z -> inside o r c ->
       np.getitem rounding_grid r c = Some BLOCKED) /\
    (forall o,
       In o rounding_table -> passes o ->
       (1 <= rows)%Z -> (1 <= cols)%Z ->
       0 <= d_north o -> 0 <= d_east o -> 0 <= 0 ->
       exists r c, inside o r c /\
                   np.getitem rounding_grid r c = Some BLOCKED).
Proof.
  split; [exact (proj1 rounding_table_computed)|].
  exact (altitude_test_gates_marking rounding_table 1 0 rounding_grid
           (proj1 rounding_table_computed)).
Defined.

(** ** C3: dimensions *)

(** C3: whenever [create_grid] returns a grid for a table, the grid has
    [ceil(north_max - north_min)] rows, each of
    [ceil(east_max - east_min)] cells, where [north_min] is the floor of
    the least [north - d_north], [north_max] the ceiling of the greatest
    [north + d_north], and likewise for east, all in float64 arithmetic
    and without the margin; the grid returned for any other altitude and
    margin has the same shape. *)
Theorem create_grid_shape (data : list Obstacle) (a m : Q)
    (g : np.ndarray) :
  create_grid data a m = Ok g ->
  exists n_lo n_hi e_lo e_hi,
    is_min n_lo (map (fun o => north o -. d_north o) data) /\
    is_max n_hi (map (fun o => north o +. d_north o) data) /\
    is_min e_lo (map (fun o => east o -. d_east o) data) /\
    is_max e_hi (map (fun o => east o +. d_east o) data) /\
    let north_min := np.floor n_lo in
    let north_max := np.ceil n_hi in
    let east_min := np.floor e_lo in
    let east_max := np.ceil e_hi in
    let rows := Qceiling (north_max -. north_min) in
    let cols := Qceiling (east_max -. east_min) in
    np.shape g = (rows, cols) /\
    length (np.rows g) = Z.to_nat rows /\
    Forall (fun row => length row = Z.to_nat cols) (np.rows g) /\
    forall a' m' g',
      create_grid data a' m' = Ok g' -> np.shape g' = (rows, cols).
Proof.
  intros H.
  destruct (create_grid_spelled_out _ _ _ _ H)
    as (n_lo & n_hi & e_lo & e_hi & H1 & H2 & H3 & H4 & Hrest).
  exists n_lo, n_hi, e_lo, e_hi.
  repeat (split; [assumption|]).
  cbv zeta in *.
  assert (Hic : forall x, int (np.ceil x) = Qceiling x)
    by (intros x; apply int_inject_Z).
  rewrite !Hic in Hrest.
  destruct Hrest as (Hfr & _ & _ & Hwf & Hs & _).
  split; [assumption|].
  unfold well_formed in Hwf. rewrite Hs in Hwf.
  destruct Hwf as (_ & _ & Hlen & Hrows).
  split; [assumption|]. split; [assumption|].
  intros a' m' g' H'. eapply create_grid_frame_shape; eauto.
Qed.

Lemma create_grid_shape_witness :
  create_grid [rounding_obstacle] 1 0 =
    Ok (np.mkArray (2, 2)%Z [[1; 1]; [1; 1]]) /\
  exists n_lo n_hi e_lo e_hi,
    is_min n_lo (map (fun o => north o -. d_north o) [rounding_obstacle]) /\
    is_max n_hi (map (fun o => north o +. d_north o) [rounding_obstacle]) /\
    is_min e_lo (map (fun o => east o -. d_east o) [rounding_obstacle]) /\
    is_max e_hi (map (fun o => east o +. d_east o) [rounding_obstacle]) /\
    let north_min := np.floor n_lo in
    let north_max := np.ceil n_hi in
    let east_min := np.floor e_lo in
    let east_max := np.ceil e_hi in
    let rows := Qceiling (north_max -. north_min) in
    let cols := Qceiling (east_max -. east_min) in
    np.shape (np.mkArray (2, 2)%Z [[1; 1]; [1; 1]]) = (rows, cols) /\
    length (np.rows (np.mkArray (2, 2)%Z [[1; 1]; [1; 1]])) =
      Z.to_nat rows /\
    Forall (fun row => length row = Z.to_nat cols)
           (np.rows (np.mkArray (2, 2)%Z [[1; 1]; [1; 1]])) /\
    forall a' m' g',
      create_grid [rounding_obstacle] a' m' = Ok g' ->
      np.shape g' = (rows, cols).
Proof.
  assert (Hg : create_grid [rounding_obstacle] 1 0 =
               Ok (np.mkArray (2, 2)%Z [[1; 1]; [1; 1]]))
    by (vm_compute; reflexivity).
  split; [exact Hg|].
  exact (create_grid_shape [rounding_obstacle] 1 0 _ Hg).
Defined.

(** ** C4: failures *)

(** C4, as stated, fails: a table with a negative half-extent is accepted
    when the bounding extent it yields still has non-negative sizes. *)
Lemma negative_half_extent_accepted :
  ~ rejects_invalid_input [scenario_obstacle; inverted_obstacle] 1 1.
Proof.
  intros H. destruct H as [e He].
  - right. intros Hall. inversion Hall as [|? ? _ Hrest]; subst.
    inversion Hrest as [|? ? Hinv _]; subst.
    destruct Hinv as [Hneg _]. apply Hneg. reflexivity.
  - vm_compute in He. discriminate He.
Qed.

(** C4, amended: [create_grid] fails, returning no grid, whenever the
    table is empty, and whenever the extent it computes has a negative
    number of rows or columns; it does not check the half-extents, so a
    negative half-extent is rejected only through such an extent; and
    whether it fails, and with which error, never depends on the altitude
    or the margin, negative and extreme values included. *)
Theorem create_grid_failure :
  (forall a m, exists e, create_grid [] a m = Raise e) /\
  (forall data a m n_lo n_hi e_lo e_hi,
     is_min n_lo (map (fun o => north o -. d_north o) data) ->
     is_max n_hi (map (fun o => north o +. d_north o) data) ->
     is_min e_lo (map (fun o => east o -. d_east o) data) ->
     is_max e_hi (map (fun o => east o +. d_east o) data) ->
     (int (np.ceil (np.ceil n_hi -. np.floor n_lo)) < 0 \/
      int (np.ceil (np.ceil e_hi -. np.floor e_lo)) < 0)%Z ->
     exists e, create_grid data a m = Raise e) /\
  (forall data a m a' m' e,
     create_grid data a m = Raise e -> create_grid data a' m' = Raise e).
Proof.
  split; [|split].
  - intros a m. eexists. reflexivity.
  - intros data a m n_lo n_hi e_lo e_hi H1 H2 H3 H4 Hneg.
    destruct (create_grid data a m) as [g|e] eqn:E; [|eauto].
    exfalso.
    destruct (create_grid_spelled_out _ _ _ _ E)
      as (n_lo' & n_hi' & e_lo' & e_hi' & H1' & H2' & H3' & H4' & Hrest).
    cbv zeta in Hrest. destruct Hrest as (_ & Hn & He & _).
    assert (E1 : n_lo' == n_lo)
      by (eapply is_min_unique; eauto; reflexivity).
    assert (E2 : n_hi' == n_hi)
      by (eapply is_max_unique; eauto; reflexivity).
    assert (E3 : e_lo' == e_lo)
      by (eapply is_min_unique; eauto; reflexivity).
    assert (E4 : e_hi' == e_hi)
      by (eapply is_max_unique; eauto; reflexivity).
    unfold np.floor, np.ceil in *.
    rewrite (Qfloor_comp _ _ E1), (Qceiling_comp _ _ E2) in Hn.
    rewrite (Qfloor_comp _ _ E3), (Qceiling_comp _ _ E4) in He.
    lia.
  - intros data a m a' m' e H.
    apply create_grid_raise_iff. apply create_grid_raise_iff in H. exact H.
Qed.

Lemma create_grid_failure_witness :
  (int (np.ceil (np.ceil (-1) -. np.floor 1)) < 0 \/
   int (np.ceil (np.ceil (-1) -. np.floor 1)) < 0)%Z /\
  exists e, create_grid [inverted_obstacle] (-1000) 1000 = Raise e.
Proof.
  assert (Hneg : (int (np.ceil (np.ceil (-1) -. np.floor 1)) < 0 \/
                  int (np.ceil (np.ceil (-1) -. np.floor 1)) < 0)%Z)
    by (left; vm_compute; reflexivity).
  split; [exact Hneg|].
  apply (proj1 (proj2 create_grid_failure)
           [inverted_obstacle] (-1000) 1000 1 (-1) 1 (-1)); try exact Hneg.
  - split; [exists (0 -. -1)|intros y [<-|[]]]; vm_compute.
    + split; [now left|reflexivity].
    + discriminate.
  - split; [exists (0 +. -1)|intros y [<-|[]]]; vm_compute.
    + split; [now left|reflexivity].
    + discriminate.
  - split; [exists (0 -. -1)|intros y [<-|[]]]; vm_compute.
    + split; [now left|reflexivity].
    + discriminate.
  - split; [exists (0 +. -1)|intros y [<-|[]]]; vm_compute.
    + split; [now left|reflexivity].
    + discriminate.
Defined.

(** ** C5: scenario A *)

(** C5, as stated, fails: the grid for scenario A is not 7 x 7. *)
Lemma scenario_A_not_7x7 :
  ~ exists g, create_grid [scenario_obstacle] 1 1 = Ok g /\
              np.shape g = (7, 7)%Z.
Proof.
  intros (g & Hg & Hs).
  rewrite (proj1 scenario_A_computed) in Hg. injection Hg as <-.
  discriminate Hs.
Qed.

(** C5, amended: on the single obstacle [(0, 0, 5, 2, 2, 5)] with altitude
    1 and margin 1, [create_grid] returns a 4 x 4 grid with origin
    [(-2, -2)] (the bounds come from the footprint without the margin:
    north and east in [[-2, 2]]); the obstacle passes the altitude test
    ([5 + 5 + 1 = 11 > 1]) and every cell, rows 0 to 3 and columns 0 to 3,
    is BLOCKED. *)
Theorem scenario_A_grid :
  create_grid [scenario_obstacle] 1 1 =
    Ok (np.mkArray (4, 4)%Z (repeat (repeat BLOCKED 4) 4)) /\
  grid_frame [scenario_obstacle] = Ok (-2, -2, 4%Z, 4%Z) /\
  alt scenario_obstacle + d_alt scenario_obstacle + 1 == 11 /\
  altitude_test 1 1 scenario_obstacle = true.
Proof.
  split; [exact (proj1 scenario_A_computed)|].
  split; [exact (proj2 scenario_A_computed)|].
  split; [reflexivity|]. vm_compute. reflexivity.
Qed.

(** ** C10: cells are binary *)

(** C10: on every input on which [create_grid] returns, each cell of the
    returned grid holds FREE (0) or BLOCKED (1). *)
Theorem create_grid_cells_binary (data : list Obstacle) (a m : Q)
    (g : np.ndarray) :
  create_grid data a m = Ok g ->
  Forall (Forall binary) (np.rows g).
Proof.
  intros H. apply create_grid_inv in H.
  destruct H as (nmin & emin & ns & es & _ & _ & _ & ->).
  apply binary_populate. simpl.
  apply Forall_forall. intros row Hrow. apply repeat_spec in Hrow. subst row.
  apply Forall_forall. intros v Hv. apply repeat_spec in Hv. subst v.
  now left.
Qed.

Lemma create_grid_cells_binary_witness :
  Forall (Forall binary)
    (np.rows (np.mkArray (4, 4)%Z (repeat (repeat BLOCKED 4) 4))).
Proof.
  apply (create_grid_cells_binary [scenario_obstacle] 1 1).
  exact (proj1 scenario_A_computed).
Defined.

(** ** C6: order of the obstacles *)

(** C6: for every valid input, permuting the table leaves the returned
    grid unchanged. *)
Theorem create_grid_permutation (data data' : list Obstacle) (a m : Q) :
  valid_input data -> Permutation data data' ->
  exists g, create_grid data a m = Ok g /\ create_grid data' a m = Ok g.
Proof.
  intros Hv HP.
  destruct (grid_frame_valid data Hv)
    as (nmin & emin & ns & es & Hfr & Hn & He).
  assert (Hfr' : grid_frame data' = Ok (nmin, emin, ns, es))
    by (now rewrite (grid_frame_perm _ _ HP)).
  eexists. split; [apply (create_grid_ok data a m _ _ _ _ Hfr Hn He)|].
  rewrite (create_grid_ok data' a m _ _ _ _ Hfr' Hn He). f_equal.
  pose proof (well_formed_zeros ns es Hn He) as Hwf.
  apply ndarray_ext.
  - now apply well_formed_populate.
  - now apply well_formed_populate.
  - now rewrite !shape_populate.
  - rewrite shape_populate. simpl. intros r c Hr Hc.
    rewrite !populate_zeros_cell by assumption.
    f_equal. rewrite (existsb_perm _ _ _ HP). reflexivity.
Qed.

Lemma create_grid_permutation_witness :
  exists g,
    create_grid [scenario_obstacle; point_obstacle] 1 1 = Ok g /\
    create_grid [point_obstacle; scenario_obstacle] 1 1 = Ok g.
Proof.
  apply create_grid_permutation.
  - split; [discriminate|]. repeat constructor; discriminate.
  - apply perm_swap.
Defined.

(** ** C7: growing the margin *)

(** C7: for every valid input and margins [m1 <= m2] at one altitude, if
    every obstacle has the same altitude-test outcome at [m1] and [m2],
    each cell BLOCKED in the grid for [m1] is BLOCKED in the grid for
    [m2]. *)
Theorem create_grid_margin_monotone (data : list Obstacle) (a m1 m2 : Q) :
  valid_input data -> m1 <= m2 ->
  (forall o, In o data -> altitude_test a m1 o = altitude_test a m2 o) ->
  exists g1 g2,
    create_grid data a m1 = Ok g1 /\ create_grid data a m2 = Ok g2 /\
    forall r c,
      np.getitem g1 r c = Some BLOCKED -> np.getitem g2 r c = Some BLOCKED.
Proof.
  intros Hv Hm Htest.
  destruct (grid_frame_valid data Hv)
    as (nmin & emin & ns & es & Hfr & Hn & He).
  do 2 eexists.
  split; [apply (create_grid_ok data a m1 _ _ _ _ Hfr Hn He)|].
  split; [apply (create_grid_ok data a m2 _ _ _ _ Hfr Hn He)|].
  intros r c H1.
  assert (Hrange : (0 <= r < ns)%Z /\ (0 <= c < es)%Z).
  { apply getitem_in_range in H1.
    - now rewrite shape_populate in H1.
    - now apply well_formed_populate, well_formed_zeros. }
  destruct Hrange as [Hr Hc].
  apply populate_zeros_blocked in H1; try assumption.
  destruct H1 as (o & Ho & Ht & Hrect).
  apply populate_zeros_blocked; try assumption.
  exists o. split; [assumption|]. split.
  - now rewrite <- (Htest o Ho).
  - eapply in_rectangle_margin_mono; eauto.
Qed.

Lemma create_grid_margin_monotone_witness :
  valid_input [scenario_obstacle] /\ 0 <= 1 /\
  exists g1 g2,
    create_grid [scenario_obstacle] 1 0 = Ok g1 /\
    create_grid [scenario_obstacle] 1 1 = Ok g2 /\
    forall r c,
      np.getitem g1 r c = Some BLOCKED -> np.getitem g2 r c = Some BLOCKED.
Proof.
  split; [exact valid_scenario|]. split; [discriminate|].
  apply (create_grid_margin_monotone [scenario_obstacle] 1 0 1
           valid_scenario).
  - discriminate.
  - intros o [<-|[]]. vm_compute. reflexivity.
Defined.

(** ** C8: the altitude threshold *)

(** C8: for a fixed obstacle and margin the iteration has one threshold,
    the float64 sum [alt + d_alt + safety_distance]: at every altitude at
    or above it the iteration leaves the grid as it is, and at every
    altitude strictly below it the iteration sets to BLOCKED exactly the
    cells of the obstacle's closed index rectangle and leaves every other
    cell as it was; the rectangle does not depend on the altitude. *)
Theorem altitude_threshold (m north_min east_min : Q) (rows cols : Z)
    (o : Obstacle) (grid : np.ndarray) :
  well_formed grid -> np.shape grid = (rows, cols) ->
  let threshold := alt o +. d_alt o +. m in
  let body a := loop_body a m north_min east_min rows cols grid o in
  let inside r c :=
    (int (np.clip (north o -. d_north o -. m -. north_min)
                  0 (inject_Z (rows - 1))) <= r <=
     int (np.clip (north o +. d_north o +. m -. north_min)
                  0 (inject_Z (rows - 1))))%Z /\
    (int (np.clip (east o -. d_east o -. m -. east_min)
                  0 (inject_Z (cols - 1))) <= c <=
     int (np.clip (east o +. d_east o +. m -. east_min)
                  0 (inject_Z (cols - 1))))%Z in
  (forall a, threshold <= a -> body a = grid) /\
  (forall a r c,
     a < threshold -> (0 <= r < rows)%Z -> (0 <= c < cols)%Z ->
     (inside r c -> np.getitem (body a) r c = Some BLOCKED) /\
     (~ inside r c -> np.getitem (body a) r c = np.getitem grid r c)).
Proof.
  intros Hwf Hs. cbv zeta. split.
  - intros a Ha. apply loop_body_skip. now apply Qgtb_false.
  - intros a r c Ha Hr Hc.
    assert (Ht : altitude_test a m o = true) by now apply Qgtb_spec.
    pose proof (getitem_loop_body a m north_min east_min rows cols
                  grid o r c Hwf) as Hget.
    rewrite Hs in Hget. specialize (Hget Hr Hc).
    pose proof (marks_spec a m north_min east_min rows cols o r c Hr Hc)
      as Hmarks.
    split; intros Hin.
    + rewrite Hget.
      assert (E : contributes a m north_min east_min rows cols
                    (rows, cols) r c o = true)
        by (apply Hmarks; split; [assumption|exact Hin]).
      now rewrite E.
    + rewrite Hget.
      destruct (contributes a m north_min east_min rows cols
                  (rows, cols) r c o) eqn:E; [|reflexivity].
      exfalso. apply Hin. exact (proj2 (proj1 Hmarks eq_refl)).
Qed.

(** The obstacle [(0, 0, 5, 2, 2, 5)] with margin -1 on a free 4 x 4 grid
    with origin [(-2, -2)]: the threshold is [5 + 5 - 1 = 9] and the index
    rectangle is rows and columns 1 to 3. *)
Lemma altitude_threshold_witness :
  well_formed (np.mkArray (4, 4)%Z (repeat (repeat FREE 4) 4)) /\
  np.shape (np.mkArray (4, 4)%Z (repeat (repeat FREE 4) 4)) = (4, 4)%Z /\
  loop_body 9 (-1) (-2) (-2) 4 4
    (np.mkArray (4, 4)%Z (repeat (repeat FREE 4) 4)) scenario_obstacle =
  np.mkArray (4, 4)%Z (repeat (repeat FREE 4) 4) /\
  np.getitem
    (loop_body 1 (-1) (-2) (-2) 4 4
       (np.mkArray (4, 4)%Z (repeat (repeat FREE 4) 4)) scenario_obstacle)
    1 1 = Some BLOCKED /\
  np.getitem
    (loop_body 8 (-1) (-2) (-2) 4 4
       (np.mkArray (4, 4)%Z (repeat (repeat FREE 4) 4)) scenario_obstacle)
    3 3 = Some BLOCKED /\
  np.getitem
    (loop_body 1 (-1) (-2) (-2) 4 4
       (np.mkArray (4, 4)%Z (repeat (repeat FREE 4) 4)) scenario_obstacle)
    0 0 =
  np.getitem (np.mkArray (4, 4)%Z (repeat (repeat FREE 4) 4)) 0 0.
Proof.
  assert (Hwf : well_formed (np.mkArray (4, 4)%Z (repeat (repeat FREE 4) 4)))
    by (apply (well_formed_zeros 4 4); lia).
  destruct (altitude_threshold (-1) (-2) (-2) 4 4 scenario_obstacle
              (np.mkArray (4, 4)%Z (repeat (repeat FREE 4) 4)) Hwf eq_refl)
    as [Habove Hbelow].
  split; [exact Hwf|]. split; [reflexivity|].
  split; [apply Habove; vm_compute; discriminate|].
  split; [|split].
  - apply (Hbelow 1 1%Z 1%Z); [vm_compute; reflexivity|lia|lia|].
    vm_compute. repeat split; discriminate.
  - apply (Hbelow 8 3%Z 3%Z); [vm_compute; reflexivity|lia|lia|].
    vm_compute. repeat split; discriminate.
  - apply (Hbelow 1 0%Z 0%Z); [vm_compute; reflexivity|lia|lia|].
    intros [[H _] _]. vm_compute in H. apply H. reflexivity.
Defined.

(** The threshold is the rounded sum: for [alt = 0.1], [d_alt = 0.7] and
    no margin it is [0.7999999999999999], so at that altitude the
    iteration does nothing, although [0.1 + 0.7] is larger in exact
    arithmetic. *)
Lemma altitude_threshold_rounds :
  let a := literal (7999999999999999 # 10000000000000000) in
  a < alt rounding_altitude_obstacle + d_alt rounding_altitude_obstacle /\
  alt rounding_altitude_obstacle +. d_alt rounding_altitude_obstacle +. 0
    <= a /\
  forall grid nmin emin rows cols,
    loop_body a 0 nmin emin rows cols grid rounding_altitude_obstacle = grid.
Proof.
  cbv zeta. split; [vm_compute; reflexivity|].
  split; [vm_compute; discriminate|].
  intros grid nmin emin rows cols. apply loop_body_skip.
  vm_compute. reflexivity.
Qed.

(** ** C9: marking stays inside the grid *)

(** C9, as stated, fails on a valid input whose grid has no rows: for a
    single point obstacle at integer coordinates the sizes are 0, each
    clamp is onto [[0, -1]] and yields [-1], which is not an index in
    [[0, rows-1]]. *)
Lemma point_obstacle_bounds_not_in_range :
  valid_input [point_obstacle] /\
  grid_frame [point_obstacle] = Ok (0, 0, 0%Z, 0%Z) /\
  altitude_test 1 1 point_obstacle = true /\
  obstacle 1 0 0 0 0 point_obstacle = (-1, -1, -1, -1)%Z /\
  ~ bounds_in_range (obstacle 1 0 0 0 0 point_obstacle) 0 0.
Proof.
  split; [exact valid_point|].
  split; [vm_compute; reflexivity|].
  split; [vm_compute; reflexivity|].
  split; [vm_compute; reflexivity|].
  vm_compute. intros ([H _] & _). apply H. reflexivity.
Qed.

(** C9, amended: for every valid input, every cell the loop writes lies
    within the grid, and whenever the grid has at least one row and one
    column each of the four bounds is clamped into [[0, rows-1]] (north)
    or [[0, cols-1]] (east) before marking.  (When a size is 0 no bound
    can lie in the empty range [[0, -1]]; the slice then selects
    nothing.) *)
Theorem marking_stays_in_grid (data : list Obstacle) (a m : Q) :
  valid_input data ->
  exists g north_min east_min north_size east_size,
    create_grid data a m = Ok g /\
    grid_frame data = Ok (north_min, east_min, north_size, east_size) /\
    np.shape g = (north_size, east_size) /\
    forall o, In o data ->
      let rect := obstacle m north_min east_min north_size east_size o in
      (forall r c,
         written rect north_size east_size r c = true ->
         (0 <= r < north_size)%Z /\ (0 <= c < east_size)%Z) /\
      ((1 <= north_size)%Z -> (1 <= east_size)%Z ->
       bounds_in_range rect north_size east_size).
Proof.
  intros Hv.
  destruct (grid_frame_valid data Hv)
    as (nmin & emin & ns & es & Hfr & Hn & He).
  eexists. exists nmin, emin, ns, es.
  split; [apply (create_grid_ok data a m _ _ _ _ Hfr Hn He)|].
  split; [assumption|]. split; [now rewrite shape_populate|].
  intros o _. cbv zeta. split.
  - intros r c. unfold written, obstacle.
    rewrite andb_true_iff. intros [Hr Hc].
    apply in_slice_on_axis in Hr, Hc; auto.
  - intros Hn1 He1. unfold bounds_in_range, obstacle.
    repeat split; apply int_clip_range; assumption.
Qed.

(** On scenario A with margin 1 the inflated footprint, rows and columns
    -1 to 5 before clamping, exceeds the 4 x 4 grid; the bounds used for
    marking are 0 and 3. *)
Lemma marking_stays_in_grid_witness :
  valid_input [scenario_obstacle] /\
  grid_frame [scenario_obstacle] = Ok (-2, -2, 4%Z, 4%Z) /\
  int (north scenario_obstacle -. d_north scenario_obstacle -. 1 -. -2)
    = (-1)%Z /\
  int (north scenario_obstacle +. d_north scenario_obstacle +. 1 -. -2)
    = 5%Z /\
  obstacle 1 (-2) (-2) 4 4 scenario_obstacle = (0, 3, 0, 3)%Z /\
  bounds_in_range (obstacle 1 (-2) (-2) 4 4 scenario_obstacle) 4 4 /\
  forall r c,
    written (obstacle 1 (-2) (-2) 4 4 scenario_obstacle) 4 4 r c = true ->
    (0 <= r < 4)%Z /\ (0 <= c < 4)%Z.
Proof.
  split; [exact valid_scenario|].
  split; [exact (proj2 scenario_A_computed)|].
  split; [vm_compute; reflexivity|].
  split; [vm_compute; reflexivity|].
  split; [vm_compute; reflexivity|].
  destruct (marking_stays_in_grid [scenario_obstacle] 1 1 valid_scenario)
    as (g & nmin & emin & ns & es & _ & Hfr & _ & Hall).
  rewrite (proj2 scenario_A_computed) in Hfr.
  injection Hfr as <- <- <- <-.
  destruct (Hall scenario_obstacle (or_introl eq_refl)) as [Hin Hb].
  split; [apply Hb; lia|exact Hin].
Defined.

(** * Further properties of [create_grid] *)

(** ** X1: nothing passes the altitude test *)

(** X1: when no row passes the altitude test, that is
    [alt + d_alt + margin <= altitude] in float64 arithmetic for every
    row, every cell of the returned grid is FREE. *)
Theorem create_grid_all_free (data : list Obstacle) (a m : Q)
    (g : np.ndarray) :
  create_grid data a m = Ok g ->
  (forall o, In o data -> alt o +. d_alt o +. m <= a) ->
  Forall (Forall (fun v => v = FREE)) (np.rows g).
Proof.
  intros H Hall.
  pose proof (create_grid_cells_binary_rows _ _ _ _ H) as Hbin.
  destruct (create_grid_spelled_out _ _ _ _ H)
    as (n_lo & n_hi & e_lo & e_hi & _ & _ & _ & _ & Hrest).
  cbv zeta in Hrest. destruct Hrest as (_ & _ & _ & _ & _ & Hb).
  apply Forall_forall. intros row Hrow. apply Forall_forall. intros v Hv.
  rewrite Forall_forall in Hbin. specialize (Hbin row Hrow).
  rewrite Forall_forall in Hbin. destruct (Hbin v Hv) as [E|E]; [exact E|].
  exfalso. subst v.
  apply In_nth_error in Hrow. destruct Hrow as [i Hi].
  apply In_nth_error in Hv. destruct Hv as [j Hj].
  assert (Hcell : np.getitem g (Z.of_nat i) (Z.of_nat j) = Some BLOCKED).
  { unfold np.getitem.
    destruct (Z.ltb_spec (Z.of_nat i) 0); [lia|].
    destruct (Z.ltb_spec (Z.of_nat j) 0); [lia|]. simpl.
    now rewrite !Nat2Z.id, Hi. }
  apply Hb in Hcell. destruct Hcell as (_ & _ & o & Ho & Ht & _).
  specialize (Hall o Ho). lra.
Qed.

(** At altitude [0.7999999999999999] the row with [alt = 0.1] and
    [d_alt = 0.7] does not pass, the rounded sum being equal to the
    altitude. *)
Lemma create_grid_all_free_witness :
  Forall (Forall (fun v => v = FREE))
    (np.rows (np.mkArray (2, 2)%Z (repeat (repeat FREE 2) 2))).
Proof.
  apply (create_grid_all_free [rounding_altitude_obstacle]
           (literal (7999999999999999 # 10000000000000000)) 0).
  - vm_compute. reflexivity.
  - intros o [<-|[]]. vm_compute. discriminate.
Defined.

(** ** X2: only the set of rows matters *)

(** X2: two tables with the same rows, in any order and with any
    repetitions, give the same result, grid or error. *)
Theorem create_grid_same_rows (data data' : list Obstacle) (a m : Q) :
  (forall o, In o data <-> In o data') ->
  create_grid data' a m = create_grid data a m.
Proof.
  intros Hsame. rewrite !create_grid_unfold.
  rewrite (grid_frame_same_elements _ _ Hsame).
  destruct (grid_frame data) as [[[[nmin emin] ns] es]|e]; [|reflexivity].
  cbn [bind].
  destruct (np.zeros (ns, es)) as [g0|e] eqn:Ez; [|reflexivity].
  cbn [bind]. f_equal.
  apply zeros_inv in Ez. simpl in Ez. destruct Ez as (Hn & He & ->).
  pose proof (well_formed_zeros ns es Hn He) as Hwf.
  apply ndarray_ext.
  - now apply well_formed_populate.
  - now apply well_formed_populate.
  - now rewrite !shape_populate.
  - rewrite shape_populate. simpl. intros r c Hr Hc.
    rewrite !populate_zeros_cell by assumption.
    f_equal. rewrite (existsb_same_elements _ data' data); [reflexivity|].
    intros o. symmetry. apply Hsame.
Qed.

Lemma create_grid_same_rows_witness :
  create_grid [scenario_obstacle; point_obstacle; scenario_obstacle] 1 1 =
  create_grid [point_obstacle; scenario_obstacle] 1 1.
Proof.
  apply create_grid_same_rows. intros o. simpl. tauto.
Defined.

(** ** X3: raising the flight altitude *)

(** X3: at a higher flight altitude, with the table and margin fixed, no
    new cell becomes BLOCKED. *)
Theorem create_grid_altitude_antitone (data : list Obstacle)
    (a1 a2 m : Q) (g1 g2 : np.ndarray) :
  a1 <= a2 ->
  create_grid data a1 m = Ok g1 -> create_grid data a2 m = Ok g2 ->
  forall r c,
    np.getitem g2 r c = Some BLOCKED -> np.getitem g1 r c = Some BLOCKED.
Proof.
  intros Ha H1 H2 r c.
  destruct (create_grid_blocked_spec _ _ _ _ H1)
    as (nmin & emin & ns & es & Hfr & Hb1).
  destruct (create_grid_blocked_spec _ _ _ _ H2)
    as (nmin' & emin' & ns' & es' & Hfr' & Hb2).
  rewrite Hfr in Hfr'. injection Hfr' as <- <- <- <-.
  rewrite Hb1, Hb2. intros (Hr & Hc & o & Ho & Ht & Hrect).
  repeat (split; [assumption|]). exists o.
  split; [assumption|]. split; [|exact Hrect].
  apply (altitude_test_mono a2 a1 m m); [assumption|apply Qle_refl|exact Ht].
Qed.

Lemma create_grid_altitude_antitone_witness :
  1 <= 5 /\
  np.getitem (np.mkArray (4, 4)%Z (repeat (repeat BLOCKED 4) 4)) 2 3
    = Some BLOCKED.
Proof.
  split; [discriminate|].
  apply (create_grid_altitude_antitone [scenario_obstacle] 1 5 1
           (np.mkArray (4, 4)%Z (repeat (repeat BLOCKED 4) 4))
           (np.mkArray (4, 4)%Z (repeat (repeat BLOCKED 4) 4)));
    [discriminate|exact (proj1 scenario_A_computed)
    |vm_compute; reflexivity|reflexivity].
Defined.

(** ** X4: growing the margin, unconditionally *)

(** X4: with the table and altitude fixed, a larger margin never unblocks
    a cell; no assumption on the altitude test is needed, because the test
    itself is monotone in the margin. *)
Theorem margin_growth_never_unblocks (data : list Obstacle)
    (a m1 m2 : Q) (g1 g2 : np.ndarray) :
  m1 <= m2 ->
  create_grid data a m1 = Ok g1 -> create_grid data a m2 = Ok g2 ->
  forall r c,
    np.getitem g1 r c = Some BLOCKED -> np.getitem g2 r c = Some BLOCKED.
Proof.
  intros Hm H1 H2 r c.
  destruct (create_grid_blocked_spec _ _ _ _ H1)
    as (nmin & emin & ns & es & Hfr & Hb1).
  destruct (create_grid_blocked_spec _ _ _ _ H2)
    as (nmin' & emin' & ns' & es' & Hfr' & Hb2).
  rewrite Hfr in Hfr'. injection Hfr' as <- <- <- <-.
  rewrite Hb1, Hb2. intros (Hr & Hc & o & Ho & Ht & Hrect).
  repeat (split; [assumption|]). exists o. split; [assumption|]. split.
  - apply (altitude_test_mono a a m1 m2); [apply Qle_refl|assumption|exact Ht].
  - eapply in_rectangle_margin_mono; eauto.
Qed.

Lemma margin_growth_never_unblocks_witness :
  -1 <= 1 /\
  exists g2,
    create_grid [scenario_obstacle] 1 1 = Ok g2 /\
    np.getitem g2 1 1 = Some BLOCKED.
Proof.
  split; [discriminate|].
  exists (np.mkArray (4, 4)%Z (repeat (repeat BLOCKED 4) 4)).
  split; [exact (proj1 scenario_A_computed)|].
  apply (margin_growth_never_unblocks [scenario_obstacle] 1 (-1) 1
           (np.mkArray (4, 4)%Z
              [[0; 0; 0; 0]; [0; 1; 1; 1]; [0; 1; 1; 1]; [0; 1; 1; 1]])).
  - discriminate.
  - vm_compute. reflexivity.
  - exact (proj1 scenario_A_computed).
  - reflexivity.
Defined.

(** ** X5: no cell under an inflated obstacle is left FREE *)

(** X5: every cell of the returned grid whose half-open unit square
    [[r, r+1) x [c, c+1)] meets the footprint of a row that passes the
    altitude test, inflated by the margin and translated by the grid
    origin as the source computes them in float64 arithmetic, is
    BLOCKED. *)
Theorem create_grid_blocks_overlapped_cells (data : list Obstacle)
    (a m : Q) (g : np.ndarray) (n_lo e_lo : Q) (rows cols : Z)
    (o : Obstacle) (r c : Z) :
  create_grid data a m = Ok g ->
  is_min n_lo (map (fun o => north o -. d_north o) data) ->
  is_min e_lo (map (fun o => east o -. d_east o) data) ->
  np.shape g = (rows, cols) ->
  In o data -> a < alt o +. d_alt o +. m ->
  (0 <= r < rows)%Z -> (0 <= c < cols)%Z ->
  north o -. d_north o -. m -. np.floor n_lo < inject_Z r + 1 ->
  inject_Z r <= north o +. d_north o +. m -. np.floor n_lo ->
  east o -. d_east o -. m -. np.floor e_lo < inject_Z c + 1 ->
  inject_Z c <= east o +. d_east o +. m -. np.floor e_lo ->
  np.getitem g r c = Some BLOCKED.
Proof.
  intros H Hn He Hs Ho Ht Hr Hc L1 U1 L2 U2.
  destruct (create_grid_spelled_out _ _ _ _ H)
    as (n_lo' & n_hi' & e_lo' & e_hi' & H1 & _ & H3 & _ & Hrest).
  cbv zeta in Hrest. destruct Hrest as (_ & _ & _ & _ & Hs' & Hb).
  rewrite Hs in Hs'. injection Hs' as -> ->.
  assert (En : n_lo' == n_lo)
    by (eapply is_min_unique; eauto; reflexivity).
  assert (Ee : e_lo' == e_lo)
    by (eapply is_min_unique; eauto; reflexivity).
  unfold np.floor in *.
  rewrite (Qfloor_comp _ _ En) in Hb, Hr.
  rewrite (Qfloor_comp _ _ Ee) in Hb, Hc.
  apply Hb. repeat (split; [assumption|]).
  exists o. split; [assumption|]. split; [assumption|].
  split; apply axis_sound; assumption.
Qed.

(** On [rounding_table] the tall row's north low edge is the float
    [2.9 - 0.9 = 2.0]: cell (2, 0) meets the footprint and is BLOCKED. *)
Lemma create_grid_blocks_overlapped_cells_witness :
  north (mkObstacle (literal (29 # 10)) 1 5 (literal (9 # 10)) 1 5)
    -. d_north (mkObstacle (literal (29 # 10)) 1 5 (literal (9 # 10)) 1 5)
    -. 0 -. np.floor 0 < inject_Z 2 + 1 /\
  np.getitem rounding_grid 2 0 = Some BLOCKED.
Proof.
  assert (L : north (mkObstacle (literal (29 # 10)) 1 5
                       (literal (9 # 10)) 1 5)
              -. d_north (mkObstacle (literal (29 # 10)) 1 5
                            (literal (9 # 10)) 1 5)
              -. 0 -. np.floor 0 < inject_Z 2 + 1)
    by (vm_compute; reflexivity).
  split; [exact L|].
  apply (create_grid_blocks_overlapped_cells rounding_table 1 0
           rounding_grid 0 0 4 2
           (mkObstacle (literal (29 # 10)) 1 5 (literal (9 # 10)) 1 5)).
  - exact (proj1 rounding_table_computed).
  - split; [exists (1 -. 1)|intros y [<-|[<-|[]]]]; vm_compute.
    + split; [now left|reflexivity].
    + discriminate.
    + discriminate.
  - split; [exists (1 -. 1)|intros y [<-|[<-|[]]]]; vm_compute.
    + split; [now left|reflexivity].
    + discriminate.
    + discriminate.
  - reflexivity.
  - right. now left.
  - vm_compute. reflexivity.
  - lia.
  - lia.
  - exact L.
  - vm_compute. discriminate.
  - vm_compute. reflexivity.
  - vm_compute. discriminate.
Defined.

(** ** X8: iterations commute *)

(** X8: two iterations of the marking loop may be exchanged: on any grid,
    marking for [o1] and then for [o2] gives the same grid as marking for
    [o2] and then for [o1]. *)
Theorem loop_body_comm (a m north_min east_min : Q)
    (north_size east_size : Z) (grid : np.ndarray) (o1 o2 : Obstacle) :
  let body := loop_body a m north_min east_min north_size east_size in
  body (body grid o1) o2 = body (body grid o2) o1.
Proof.
  cbv zeta. unfold loop_body.
  destruct (altitude_test a m o1), (altitude_test a m o2); try reflexivity.
  destruct (obstacle _ _ _ _ _ o1) as [[[p0 p1] p2] p3].
  destruct (obstacle _ _ _ _ _ o2) as [[[q0 q1] q2] q3].
  apply setitem_comm.
Qed.

(** ** X9: an iteration is idempotent *)

(** X9: running the iteration for the same row twice is the same as
    running it once. *)
Theorem loop_body_idem (a m north_min east_min : Q)
    (north_size east_size : Z) (grid : np.ndarray) (o : Obstacle) :
  let body := loop_body a m north_min east_min north_size east_size in
  body (body grid o) o = body grid o.
Proof.
  cbv zeta. unfold loop_body.
  destruct (altitude_test a m o); try reflexivity.
  destruct (obstacle _ _ _ _ _ o) as [[[p0 p1] p2] p3].
  apply setitem_idem.
Qed.

(** ** X11: adding rows inside the frame *)

(** X11: if a second table contains every row of the first and yields the
    same frame, every cell BLOCKED for the first table is BLOCKED for the
    second. *)
Theorem create_grid_more_rows (data data' : list Obstacle) (a m : Q)
    (g g' : np.ndarray) :
  (forall o, In o data -> In o data') ->
  grid_frame data' = grid_frame data ->
  create_grid data a m = Ok g -> create_grid data' a m = Ok g' ->
  forall r c,
    np.getitem g r c = Some BLOCKED -> np.getitem g' r c = Some BLOCKED.
Proof.
  intros Hincl Hsame H H' r c.
  destruct (create_grid_blocked_spec _ _ _ _ H)
    as (nmin & emin & ns & es & Hfr & Hb).
  destruct (create_grid_blocked_spec _ _ _ _ H')
    as (nmin' & emin' & ns' & es' & Hfr' & Hb').
  rewrite Hsame, Hfr in Hfr'. injection Hfr' as <- <- <- <-.
  rewrite Hb, Hb'. intros (Hr & Hc & o & Ho & Ht & Hrect).
  repeat (split; [assumption|]). exists o. auto.
Qed.

Lemma create_grid_more_rows_witness :
  exists g',
    create_grid [scenario_obstacle; mkObstacle 0 0 0 0 0 1] 1 (-1) = Ok g' /\
    np.getitem g' 1 2 = Some BLOCKED.
Proof.
  exists (np.mkArray (4, 4)%Z
            [[0; 0; 0; 0]; [0; 1; 1; 1]; [0; 1; 1; 1]; [0; 1; 1; 1]]).
  split; [vm_compute; reflexivity|].
  apply (create_grid_more_rows
           [scenario_obstacle] [scenario_obstacle; mkObstacle 0 0 0 0 0 1]
           1 (-1)
           (np.mkArray (4, 4)%Z
              [[0; 0; 0; 0]; [0; 1; 1; 1]; [0; 1; 1; 1]; [0; 1; 1; 1]])).
  - intros o Ho. simpl in *. tauto.
  - vm_compute. reflexivity.
  - vm_compute. reflexivity.
  - vm_compute. reflexivity.
  - reflexivity.
Defined.

(** ** X15: a passing row always leaves a mark *)

(** X15: if the returned grid has at least one row and one column, every
    row of the table that passes the altitude test (in float64
    arithmetic) and has non-negative horizontal half-extents blocks at
    least one cell, provided the margin is non-negative. *)
Theorem create_grid_passing_row_marks (data : list Obstacle) (a m : Q)
    (g : np.ndarray) (o : Obstacle) :
  create_grid data a m = Ok g ->
  (1 <= fst (np.shape g))%Z -> (1 <= snd (np.shape g))%Z ->
  In o data -> a < alt o +. d_alt o +. m ->
  0 <= d_north o -> 0 <= d_east o -> 0 <= m ->
  exists r c, np.getitem g r c = Some BLOCKED.
Proof.
  intros H Hn He Ho Ht Dn De Hm.
  destruct (create_grid_spelled_out _ _ _ _ H)
    as (n_lo & n_hi & e_lo & e_hi & _ & _ & _ & _ & Hrest).
  cbv zeta in Hrest. destruct Hrest as (_ & _ & _ & _ & Hs & Hb).
  rewrite Hs in Hn, He. simpl in Hn, He.
  destruct (rectangle_ordered m (np.floor n_lo) (np.floor e_lo)
              _ _ o Hn He Dn De Hm) as [On Oe].
  pose proof (int_clip_range
                (north o -. d_north o -. m -. np.floor n_lo) _ Hn) as Rn.
  pose proof (int_clip_range
                (east o -. d_east o -. m -. np.floor e_lo) _ He) as Re.
  exists (int (np.clip (north o -. d_north o -. m -. np.floor n_lo) 0
                       (inject_Z
                          (int (np.ceil (np.ceil n_hi -. np.floor n_lo))
                           - 1)))),
         (int (np.clip (east o -. d_east o -. m -. np.floor e_lo) 0
                       (inject_Z
                          (int (np.ceil (np.ceil e_hi -. np.floor e_lo))
                           - 1)))).
  apply Hb.
  split; [lia|]. split; [lia|].
  exists o. split; [assumption|]. split; [assumption|].
  split; (split; [apply Z.le_refl|assumption]).
Qed.

Lemma create_grid_passing_row_marks_witness :
  exists r c, np.getitem rounding_grid r c = Some BLOCKED.
Proof.
  apply (create_grid_passing_row_marks rounding_table 1 0 rounding_grid
           (mkObstacle (literal (29 # 10)) 1 5 (literal (9 # 10)) 1 5)).
  - exact (proj1 rounding_table_computed).
  - simpl. lia.
  - simpl. lia.
  - right. now left.
  - vm_compute. reflexivity.
  - vm_compute. discriminate.
  - discriminate.
  - discriminate.
Defined.
